(** * Developer.pick: proposal reduction, filtering and selection

    A shallow embedding of [src/developer/develop.py].

    - Table cells are pandas floats.  They are modelled by [fnum]: an exact
      rational, one of the two infinities, or NaN (a missing value).  Finite
      arithmetic is exact; rounding error is what the specification calls
      the floating tolerance.  A float sum is close to the exact one only
      when its terms do not cancel: the statement on the default
      probabilities asks for profits of one sign.
    - A Series indexed by parcel is a finite map from labels to cells.
    - A DataFrame is a list of labelled rows: order and repeated labels
      matter to [loc] and [drop].
    - The instance attributes live in a [Developer] record that [pick]
      threads through, together with what it prints. *)

From Stdlib Require Import QArith Qround Lqa.
From stdpp Require Import gmap strings list sorting.

Open Scope Z_scope.

(** ** Float cells *)

Inductive fnum : Type :=
| Fin (q : Q)
| PInf
| NInf
| NaN.

Definition Qltb (a b : Q) : bool := negb (Qle_bool b a).

Definition is_nan (x : fnum) : bool :=
  match x with NaN => true | _ => false end.

Definition is_fin (x : fnum) : bool :=
  match x with Fin _ => true | _ => false end.

(** [x < y]; any comparison with NaN is false. *)
Definition flt (x y : fnum) : bool :=
  match x, y with
  | NaN, _ | _, NaN => false
  | Fin a, Fin b => Qltb a b
  | NInf, NInf => false
  | NInf, _ => true
  | _, NInf => false
  | PInf, _ => false
  | Fin _, PInf => true
  end.

(** [x <= y]. *)
Definition fle (x y : fnum) : bool :=
  match x, y with
  | NaN, _ | _, NaN => false
  | Fin a, Fin b => Qle_bool a b
  | NInf, _ => true
  | _, PInf => true
  | PInf, _ => false
  | Fin _, NInf => false
  end.

(** [x > 0]. *)
Definition fpos (x : fnum) : bool := flt (Fin 0) x.

Definition fneg (x : fnum) : fnum :=
  match x with
  | Fin a => Fin (- a)
  | PInf => NInf
  | NInf => PInf
  | NaN => NaN
  end.

Definition fadd (x y : fnum) : fnum :=
  match x, y with
  | NaN, _ | _, NaN => NaN
  | Fin a, Fin b => Fin (a + b)
  | PInf, NInf | NInf, PInf => NaN
  | PInf, _ | _, PInf => PInf
  | NInf, _ | _, NInf => NInf
  end.

Definition fsub (x y : fnum) : fnum := fadd x (fneg y).

Definition Qeqb (a b : Q) : bool := Qle_bool a b && Qle_bool b a.

(** The infinity carrying the sign of [a], NaN for zero. *)
Definition inf_of_sign (a : Q) : fnum :=
  if Qeqb a 0 then NaN else if Qltb 0 a then PInf else NInf.

(** Float division: dividing by zero raises nothing, it yields an infinity
    or NaN. *)
Definition fdiv (x y : fnum) : fnum :=
  match x, y with
  | NaN, _ | _, NaN => NaN
  | Fin a, Fin b => if Qeqb b 0 then inf_of_sign a else Fin (a / b)
  | Fin _, _ => Fin 0
  | PInf, Fin b => if Qltb b 0 then NInf else PInf
  | NInf, Fin b => if Qltb b 0 then PInf else NInf
  | _, _ => NaN
  end.

(** Round half to even, as [Series.round]. *)
Definition Qround_half_even (q : Q) : Z :=
  let r := Qfloor (q + (1 # 2)) in
  if Qeqb (inject_Z r) (q + (1 # 2)) && Z.odd r then r - 1 else r.

Definition fround (x : fnum) : fnum :=
  match x with Fin q => Fin (inject_Z (Qround_half_even q)) | _ => x end.

(** [np.ceil]. *)
Definition fceil (x : fnum) : fnum :=
  match x with Fin q => Fin (inject_Z (Qceiling q)) | _ => x end.

(** [Series.sum]: NaN entries are skipped.  The sum is exact, where a
    float sum rounds after each term. *)
Definition fsum (l : list fnum) : fnum :=
  foldr fadd (Fin 0) (List.filter (fun x => negb (is_nan x)) l).


(** ** Series and frames *)

(** Errors raised by pandas or Python on the paths modelled here. *)
Inductive error : Type :=
| KeyError
| ValueError
| AttributeError
| OverflowError.

(** The outcome of a call that may raise. *)
Inductive result (A : Type) : Type :=
| Ok (a : A)
| Raise (e : error).
Arguments Ok {A} a.
Arguments Raise {A} e.

Definition bind {A B} (r : result A) (k : A -> result B) : result B :=
  match r with
  | Ok a => k a
  | Raise e => Raise e
  end.

Notation "'let*' x ':=' r 'in' k" := (bind r (fun x => k))
  (at level 10, x name, r at level 100, k at level 200).

(** A Series indexed by parcel identifier. *)
Abbreviation series := (gmap Z fnum).

(** Aligning a series on a label: a label the series lacks gives NaN. *)
Definition reindex (s : series) (i : Z) : fnum := default NaN (s !! i).

(** [len(x) == 0]. *)
Definition no_rows {A} (l : list A) : bool :=
  match l with [] => true | _ => false end.

(** A DataFrame: rows in order, each with its index label. *)
Definition frame (L A : Type) : Type := list (L * A).

Section Frames.
Context {L : Type} `{EqDecision L} {A : Type}.

Definition index (df : frame L A) : list L := map fst df.

Definition has_label (i : L) (row : L * A) : bool :=
  bool_decide (fst row = i).

(** [df.loc[idx]] with a list of labels: the rows of each label in turn,
    [KeyError] when a label is absent. *)
Fixpoint loc (df : frame L A) (idx : list L) : result (frame L A) :=
  match idx with
  | [] => Ok []
  | i :: idx' =>
      match List.filter (has_label i) df with
      | [] => Raise KeyError
      | rows => let* rest := loc df idx' in Ok (rows ++ rest)
      end
  end.

(** [df.drop(idx)]: every row with one of the labels goes, [KeyError]
    when a label is absent. *)
Definition drop_labels (df : frame L A) (idx : list L)
  : result (frame L A) :=
  if forallb (fun i => existsb (has_label i) df) idx
  then Ok (List.filter (fun row => negb (bool_decide (fst row ∈ idx))) df)
  else Raise KeyError.
End Frames.

(** ** Feasibility tables *)

(** The attributes of one proposal that [pick] reads. *)
Record Attrs : Type := mkAttrs {
  max_profit : fnum;
  max_profit_far : fnum;
  residential_sqft : fnum;
  non_residential_sqft : fnum;
  stories : fnum
}.

Definition nan_attrs : Attrs := mkAttrs NaN NaN NaN NaN NaN.

Definition all_nan (a : Attrs) : bool :=
  is_nan (max_profit a) && is_nan (max_profit_far a)
  && is_nan (residential_sqft a) && is_nan (non_residential_sqft a)
  && is_nan (stories a).

(** A row of a table of buildings: the attributes and, when the table has
    the column, the form. *)
Record Proposal : Type := mkProposal {
  form : option string;
  attrs : Attrs
}.

(** The wide table: one row per parcel, one group of attribute columns per
    form.  [columns] lists the forms in the order of their column groups; a
    row maps a form to its group of cells, and a group the row lacks is all
    NaN. *)
Record wide : Type := mkWide {
  columns : list string;
  wrows : frame Z (gmap string Attrs)
}.

Definition cell (c : string) (cells : gmap string Attrs) : Attrs :=
  default nan_attrs (cells !! c).

(** The table passed as [feasibility]: wide, or long with one row per
    proposal and the parcel as index. *)
Inductive table : Type :=
| Wide (w : wide)
| Long (l : frame Z Proposal).

(** [len(self.feasibility) == 0 or self.feasibility.empty]. *)
Definition table_empty (t : table) : bool :=
  match t with
  | Wide w => no_rows (wrows w) || no_rows (columns w)
  | Long l => no_rows l
  end.

(** The [forms] argument. *)
Inductive forms_spec : Type :=
| NoForms
| OneForm (f : string)
| FormList (l : list string).

Definition is_form_list (fs : forms_spec) : bool :=
  match fs with FormList _ => true | _ => false end.

(** ** Reduction to the most profitable form *)

(** [f[forms]] with a list of forms: [KeyError] for a form the table
    lacks.  A repeated form repeats its column group, which the reshaping
    then refuses.  The order of the groups kept plays no part: the
    reshaping sorts the forms. *)
Definition select_forms (f : wide) (forms : list string) : result wide :=
  if negb (forallb (fun c => bool_decide (c ∈ columns f)) forms)
  then Raise KeyError
  else if negb (bool_decide (NoDup forms)) then Raise ValueError
  else Ok (mkWide
             (List.filter (fun c => bool_decide (c ∈ forms)) (columns f))
             (wrows f)).

(** [f.stack(level=0)]: one row per parcel and form, labelled by the pair;
    a group of cells that is all NaN gives no row. *)
Definition stack (f : wide) : frame (Z * string) Attrs :=
  List.filter (fun row => negb (all_nan (snd row)))
    (flat_map
       (fun row => map (fun c => ((fst row, c), cell c (snd row))) (columns f))
       (wrows f)).

(** [f.stack(level=0)[[colname]].stack()] for [max_profit]: the entries
    that are not NaN. *)
Definition profit_entries (f : wide) : frame (Z * string) fnum :=
  List.filter (fun e => negb (is_nan (snd e)))
    (map (fun row => (fst row, max_profit (snd row))) (stack f)).

(** The order of the form labels: the order of Python strings. *)
Definition label_le (a b : string) : Prop := String.leb a b = true.

#[global] Instance label_le_dec : RelDecision label_le.
Proof. intros a b. unfold label_le. apply _. Defined.

(** [unstack(level=1)] lays the forms out sorted by label, whatever the
    order of the column groups of the table. *)
Definition sorted_forms (l : list string) : list string :=
  merge_sort label_le l.

(** One row of the table [unstack(level=1)] builds: the entries of parcel
    [i], form by form in the sorted order of the labels. *)
Definition profit_row (f : wide) (i : Z) : list (string * fnum) :=
  flat_map
    (fun c => map (fun e => (c, snd e))
                (List.filter (has_label (i, c)) (profit_entries f)))
    (sorted_forms (columns f)).

(** The running maximum of [idxmax]: a later column replaces the best one
    only when it is strictly greater. *)
Fixpoint argmax (best : string * fnum) (l : list (string * fnum))
  : string * fnum :=
  match l with
  | [] => best
  | cv :: l' => if flt (snd best) (snd cv) then argmax cv l' else argmax best l'
  end.

(** [idxmax] along a row: the first column holding the maximum. *)
Definition idxmax (row : list (string * fnum)) : option string :=
  match row with
  | [] => None
  | cv :: l => Some (fst (argmax cv l))
  end.

(** The parcels of the unstacked table: each once, sorted by label. *)
Definition unstacked_index (f : wide) : list Z :=
  merge_sort Z.le (remove_dups (map (fun e => fst (fst e)) (profit_entries f))).

(** [_max_form(f, "max_profit")]: for each parcel the form of greatest
    profit.  A table with no form left has no [max_profit] column once it
    is stacked, and selecting it raises [KeyError]; [unstack] raises
    [ValueError] when a parcel and form pair occurs twice.  When no
    profit is left to compare the reshaped table is empty, and [idxmax]
    is taken to give the empty result for it. *)
Definition _max_form (f : wide) : result (list (Z * string)) :=
  if no_rows (columns f) then Raise KeyError
  else if negb (bool_decide (NoDup (index (profit_entries f))))
  then Raise ValueError
  else Ok (omap (fun i => option_map (pair i) (idxmax (profit_row f i)))
             (unstacked_index f)).

Definition keep_form_with_max_profit (fe : wide) (forms : option (list string))
  : result (frame Z Proposal) :=
  let* f := match forms with
            | Some l => select_forms fe l
            | None => Ok fe
            end in
  let* indexes := if negb (no_rows (wrows f)) then _max_form f else Ok [] in
  let* df := loc (stack f) indexes in
  Ok (map (fun row => (fst (fst row), mkProposal (Some (snd (fst row))) (snd row)))
        df).

(** ** The Developer object and the rows it builds *)

(** [target_units]: a number, or a table whose [target_units] column holds
    the sub-targets. *)
Inductive target : Type :=
| Scalar (t : fnum)
| SubTargets (ts : list fnum).

(** The attributes of a [Developer] instance.  [ave_unit_size] is the
    Series object the caller passed: the instance keeps a reference to it,
    so this field is what the caller sees of that object too. *)
Record Developer : Type := mkDeveloper {
  feasibility : table;
  forms : forms_spec;
  target_units : target;
  parcel_size : series;
  ave_unit_size : series;
  current_units : series;
  year : option Z;
  bldg_sqft_per_job : fnum;
  min_unit_size : fnum;
  max_parcel_size : fnum;
  drop_after_build : bool;
  residential : bool;
  num_units_to_build : option Z;
  keep_suboptimal : bool
}.

Definition set_feasibility (t : table) (d : Developer) : Developer :=
  mkDeveloper t (forms d) (target_units d) (parcel_size d) (ave_unit_size d)
    (current_units d) (year d) (bldg_sqft_per_job d) (min_unit_size d)
    (max_parcel_size d) (drop_after_build d) (residential d)
    (num_units_to_build d) (keep_suboptimal d).

Definition set_ave_unit_size (s : series) (d : Developer) : Developer :=
  mkDeveloper (feasibility d) (forms d) (target_units d) (parcel_size d) s
    (current_units d) (year d) (bldg_sqft_per_job d) (min_unit_size d)
    (max_parcel_size d) (drop_after_build d) (residential d)
    (num_units_to_build d) (keep_suboptimal d).

Definition set_num_units_to_build (n : option Z) (d : Developer)
  : Developer :=
  mkDeveloper (feasibility d) (forms d) (target_units d) (parcel_size d)
    (ave_unit_size d) (current_units d) (year d) (bldg_sqft_per_job d)
    (min_unit_size d) (max_parcel_size d) (drop_after_build d) (residential d)
    n (keep_suboptimal d).

(** A row once [_remove_infeasible_buildings] has added its columns. *)
Record Sized : Type := mkSized {
  proposal : Proposal;
  col_ave_unit_size : fnum;
  col_parcel_size : fnum;
  col_current_units : fnum;
  residential_units : fnum;
  job_spaces : fnum
}.

(** A row of the candidate table.  [parcel_id] and [max_profit_per_size]
    are [None] while the table lacks the column. *)
Record Candidate : Type := mkCandidate {
  sized : Sized;
  net_units : fnum;
  parcel_id : option Z;
  max_profit_per_size : option fnum
}.

(** A row of the table [pick] returns: the candidate it was taken from and
    the columns [_prepare_new_buildings] writes.  The [form] and the
    [stories] of the returned row are [new_form] and [new_stories], its
    [parcel_id] is [new_parcel_id]; its other columns are those of
    [candidate]. *)
Record Building : Type := mkBuilding {
  candidate : Candidate;
  new_parcel_id : option Z;
  new_form : option string;
  new_stories : fnum;
  year_built : option Z
}.

(** What [pick] prints. *)
Inductive message : Type :=
| empty_warn
| warning
| sum_of_net_units (n : Z).

(** ** Filtering *)

(** [self.ave_unit_size[self.ave_unit_size < m] = m]. *)
Definition clamp (m : fnum) (s : series) : series :=
  (fun v => if flt v m then m else v) <$> s.

Definition _remove_infeasible_buildings (self : Developer)
    (df : frame Z Proposal) : Developer * frame Z Sized :=
  match df with
  | [] => (self, [])
  | _ =>
      let df := List.filter
                  (fun row => fpos (max_profit_far (attrs (snd row)))) df in
      let self := set_ave_unit_size
                    (clamp (min_unit_size self) (ave_unit_size self)) self in
      let df := map (fun row =>
                       (fst row,
                        (snd row,
                         (reindex (ave_unit_size self) (fst row),
                          reindex (parcel_size self) (fst row),
                          reindex (current_units self) (fst row))))) df in
      let df := List.filter
                  (fun row =>
                     let '(_, (_, (_, ps, _))) := row in
                     flt ps (max_parcel_size self)) df in
      (self,
       map (fun row =>
              let '(i, (p, (aus, ps, cu))) := row in
              (i, mkSized p aus ps cu
                    (fround (fdiv (residential_sqft (attrs p)) aus))
                    (fround (fdiv (non_residential_sqft (attrs p))
                               (bldg_sqft_per_job self))))) df)
  end.

Definition _calculate_net_units (self : Developer) (df : frame Z Sized)
  : frame Z Candidate :=
  match df with
  | [] => []
  | _ =>
      let df := map (fun row =>
                       let units := if residential self
                                    then residential_units (snd row)
                                    else job_spaces (snd row) in
                       (fst row,
                        mkCandidate (snd row)
                          (fsub units (col_current_units (snd row)))
                          None None)) df in
      List.filter (fun row => fpos (net_units (snd row))) df
  end.

(** ** Probabilities *)

Definition set_max_profit_per_size (v : fnum) (c : Candidate) : Candidate :=
  mkCandidate (sized c) (net_units c) (parcel_id c) (Some v).

(** [df.max_profit / df.parcel_size], row by row. *)
Definition profit_per_size (c : Candidate) : fnum :=
  fdiv (max_profit (attrs (proposal (sized c)))) (col_parcel_size (sized c)).

Definition _calculate_probabilities (df : frame Z Candidate)
    (profit_to_prob_func : option (frame Z Candidate -> list fnum))
  : list fnum * frame Z Candidate :=
  match profit_to_prob_func with
  | Some func => (func df, df)
  | None =>
      let df := map (fun row =>
                       (fst row,
                        set_max_profit_per_size (profit_per_size (snd row))
                          (snd row))) df in
      let col := map (fun row => default NaN (max_profit_per_size (snd row)))
                   df in
      (map (fun v => fdiv v (fsum col)) col, df)
  end.

(** ** Selection *)

Section Pick.
(** The state of the random generator behind the samplers. *)
Context {rng : Type}.

(** A sampler of [proposal_select]: from the candidates, their
    probabilities and the target it draws the labels to build, or
    raises; it advances the generator. *)
Definition sampler : Type :=
  frame Z Candidate -> list fnum -> fnum -> rng -> rng * result (list Z).

(** A selection function passed by the caller. *)
Definition selection_func : Type :=
  Developer -> frame Z Candidate -> list fnum -> target -> rng
  -> rng * result (list Z).

Variable weighted_random_choice : sampler.
Variable weighted_random_choice_multiparcel : sampler.

(** What a call reads and writes: the instance, the output printed so
    far (latest first) and the generator. *)
Record state : Type := mkState {
  self : Developer;
  printed : list message;
  gen : rng
}.

(** Computations that change the state and may raise. *)
Definition M (A : Type) : Type := state -> state * result A.

Definition ret {A} (a : A) : M A := fun st => (st, Ok a).

Definition raise {A} (e : error) : M A := fun st => (st, Raise e).

Definition mbind {A B} (m : M A) (k : A -> M B) : M B :=
  fun st =>
    match m st with
    | (st', Ok a) => k a st'
    | (st', Raise e) => (st', Raise e)
    end.

Notation "'let!' x ':=' m 'in' k" := (mbind m (fun x => k))
  (at level 10, x name, m at level 100, k at level 200).

Definition lift {A} (r : result A) : M A := fun st => (st, r).

Definition get_self : M Developer := fun st => (st, Ok (self st)).

Definition put_self (d : Developer) : M unit :=
  fun st => (mkState d (printed st) (gen st), Ok tt).

Definition print (m : message) : M unit :=
  fun st => (mkState (self st) (m :: printed st) (gen st), Ok tt).

Definition with_gen {A} (f : rng -> rng * result A) : M A :=
  fun st =>
    let (g, r) := f (gen st) in (mkState (self st) (printed st) g, r).

Definition when (b : bool) (m : M unit) : M unit :=
  if b then m else ret tt.

(** [self.feasibility[self.forms]] for a single form. *)
Definition single_form (f : wide) (c : string) : result (frame Z Proposal) :=
  if bool_decide (c ∈ columns f)
  then Ok (map (fun row => (fst row, mkProposal None (cell c (snd row))))
             (wrows f))
  else Raise KeyError.

(** A long table has no form level to select or reshape. *)
Definition _get_dataframe_of_buildings (d : Developer)
  : result (frame Z Proposal) :=
  match feasibility d with
  | Long _ => Raise KeyError
  | Wide f =>
      match forms d with
      | NoForms => keep_form_with_max_profit f None
      | FormList l => keep_form_with_max_profit f (Some l)
      | OneForm c => single_form f c
      end
  end.

(** The long table as it is; the columns of a wide table are not the
    attributes the filters read. *)
Definition long_table (d : Developer) : result (frame Z Proposal) :=
  match feasibility d with
  | Long l => Ok l
  | Wide _ => Raise AttributeError
  end.

Definition sum_net_units (df : frame Z Candidate) : fnum :=
  fsum (map (fun row => net_units (snd row)) df).

(** [int(x)] of a float: truncation, [OverflowError] for an infinity and
    [ValueError] for NaN. *)
Definition int (x : fnum) : result Z :=
  match x with
  | Fin q => Ok (if Qltb q 0 then Qceiling q else Qfloor q)
  | PInf | NInf => Raise OverflowError
  | NaN => Raise ValueError
  end.

(** [df.reset_index()] once the index is named [parcel_id]: the labels
    become a column and the rows are numbered from 0. *)
Definition set_parcel_id (i : Z) (c : Candidate) : Candidate :=
  mkCandidate (sized c) (net_units c) (Some i) (max_profit_per_size c).

Definition reset_index (df : frame Z Candidate) : frame Z Candidate :=
  imap (fun k row => (Z.of_nat k, set_parcel_id (fst row) (snd row))) df.

Definition _select_buildings (df : frame Z Candidate) (p : list fnum)
    (custom_selection_func : option selection_func) : M (list Z) :=
  let! d := get_self in
  let insufficient_units :=
    match target_units d with
    | Scalar t => flt (sum_net_units df) t
    | SubTargets ts => flt (sum_net_units df) (fsum ts)
    end in
  let! _u := when insufficient_units (print warning) in
  match custom_selection_func with
  | Some func => with_gen (func d df p (target_units d))
  | None =>
      match target_units d with
      | SubTargets _ => raise ValueError
      | Scalar t =>
          if fle t (Fin 0) then ret []
          else if keep_suboptimal d
          then with_gen (weighted_random_choice_multiparcel df p t)
          else if insufficient_units then ret (index df)
          else with_gen (weighted_random_choice df p t)
      end
  end.

Definition drop_rows (t : table) (build_idx : list Z) : result table :=
  match t with
  | Wide f =>
      let* rows := drop_labels (wrows f) build_idx in
      Ok (Wide (mkWide (columns f) rows))
  | Long l =>
      let* rows := drop_labels l build_idx in Ok (Long rows)
  end.

Definition _drop_built_buildings (build_idx : list Z) : M unit :=
  let! d := get_self in
  if drop_after_build d
  then let! t := lift (drop_rows (feasibility d) build_idx) in
       put_self (set_feasibility t d)
  else ret tt.

(** ['parcel_id' in df.columns]: the rows of a frame carry the same
    columns. *)
Definition has_parcel_id (df : frame Z Candidate) : bool :=
  match df with
  | [] => false
  | row :: _ => bool_decide (is_Some (parcel_id (snd row)))
  end.

(** One row of [new_df] once the columns are written and the index is
    reset; [drop] says whether the index is dropped. *)
Definition new_building (d : Developer) (drop : bool) (row : Z * Candidate)
  : Building :=
  let c := snd row in
  mkBuilding c
    (if drop then parcel_id c else Some (fst row))
    (if is_form_list (forms d)
     then form (proposal (sized c))
     else match forms d with OneForm f => Some f | _ => None end)
    (fceil (stories (attrs (proposal (sized c)))))
    (year d).

Definition _prepare_new_buildings (df : frame Z Candidate)
    (build_idx : list Z) : M (list Building) :=
  let! d := get_self in
  let! new_df := lift (loc df build_idx) in
  let drop := has_parcel_id df in
  ret (map (new_building d drop) new_df).

(** The table of potential buildings [pick] starts from. *)
Definition table_of_buildings (d : Developer) : result (frame Z Proposal) :=
  if negb (keep_suboptimal d)
  then _get_dataframe_of_buildings d
  else long_table d.

(** [pick]: [Ok None] is the early [return], [Ok (Some new_df)] the
    table of new buildings. *)
Definition pick
    (profit_to_prob_func : option (frame Z Candidate -> list fnum))
    (custom_selection_func : option selection_func)
  : M (option (list Building)) :=
  let! d := get_self in
  if table_empty (feasibility d)
  then let! _u := print empty_warn in ret None
  else
    let! df := lift (table_of_buildings d) in
    let (d', df) := _remove_infeasible_buildings d df in
    let! _u := put_self d' in
    let df := _calculate_net_units d' df in
    if no_rows df
    then let! _u := print empty_warn in ret None
    else
      let! n := lift (int (sum_net_units df)) in
      let! _u := print (sum_of_net_units n) in
      let df := if keep_suboptimal d' then reset_index df else df in
      let (p, df) := _calculate_probabilities df profit_to_prob_func in
      let! build_idx := _select_buildings df p custom_selection_func in
      let! _u := when (negb (keep_suboptimal d'))
                   (_drop_built_buildings build_idx) in
      let! new_df := _prepare_new_buildings df build_idx in
      ret (Some new_df).

(** The last three steps of [pick] on their own, for the proofs. *)
Definition select_drop_prepare (d : Developer) (df : frame Z Candidate)
    (p : list fnum) (custom_selection_func : option selection_func)
  : M (option (list Building)) :=
  let! build_idx := _select_buildings df p custom_selection_func in
  let! _u := when (negb (keep_suboptimal d))
               (_drop_built_buildings build_idx) in
  let! new_df := _prepare_new_buildings df build_idx in
  ret (Some new_df).

(** The candidate table [pick] hands to the selection. *)
Definition candidates (d : Developer) (df0 : frame Z Proposal)
  : frame Z Candidate :=
  _calculate_net_units (fst (_remove_infeasible_buildings d df0))
    (snd (_remove_infeasible_buildings d df0)).
End Pick.

Arguments mkState {rng} self printed gen.
Arguments self {rng} s.
Arguments printed {rng} s.
Arguments gen {rng} s.

(** ** The samplers *)

Section Samplers.
Context {rng : Type}.

(** The weighted-sampling primitive: from the weights of the remaining
    pool it draws a position, advancing the generator. *)
Variable draw : list fnum -> rng -> rng * nat.

(** Modelled from the spec: [proposal_select.weighted_random_choice] and
    [proposal_select.weighted_random_choice_multiparcel] are not under
    src/.  The selection draws one candidate at a time without
    replacement according to [p], accumulates its [net_units] and stops
    once the running total reaches the target or the pool is exhausted.
    In long mode ([multi]) a draw also removes every other proposal of
    the same parcel, and [p] is renormalised over what remains. *)
Fixpoint draw_until (multi : bool) (fuel : nat)
    (pool : list ((Z * Candidate) * fnum)) (t total : fnum) (g : rng)
  : rng * list Z :=
  match fuel with
  | O => (g, [])
  | S fuel' =>
      if no_rows pool || fle t total then (g, [])
      else
        let weights := map snd pool in
        let (g', k) :=
          draw (map (fun w => fdiv w (fsum weights)) weights) g in
        let k := (k mod length pool)%nat in
        match pool !! k with
        | None => (g', [])
        | Some (row, _) =>
            let rest :=
              List.filter
                (fun e =>
                   negb (multi
                         && bool_decide (parcel_id (snd (fst e))
                                         = parcel_id (snd row))))
                (delete k pool) in
            let (g'', idx) :=
              draw_until multi fuel' rest t
                (fadd total (net_units (snd row))) g' in
            (g'', fst row :: idx)
        end
  end.

(** Every draw shortens the pool, so its length is fuel enough. *)
Definition spec_weighted_random_choice : sampler :=
  fun df p t g =>
    let (g', idx) := draw_until false (length df) (zip df p) t (Fin 0) g in
    (g', Ok idx).

Definition spec_weighted_random_choice_multiparcel : sampler :=
  fun df p t g =>
    let (g', idx) := draw_until true (length df) (zip df p) t (Fin 0) g in
    (g', Ok idx).
End Samplers.

(** A primitive for the examples: the generator is a counter and the
    position drawn is its value. *)
Definition counter_draw (weights : list fnum) (g : nat) : nat * nat :=
  (S g, g).

(** ** Example tables *)

Definition plain (profit sqft : Q) : Attrs :=
  mkAttrs (Fin profit) (Fin 1) (Fin sqft) (Fin 0) (Fin (3 # 2)).

(** Scenario D: the forms of parcel 1 compete; parcel 2 has a tie. *)
Definition scenario_D : wide :=
  mkWide ["residential"; "office"]%string
    [(1, {[ "residential"%string := plain 50 2000;
            "office"%string := plain 80 2000 ]});
     (2, {[ "residential"%string := plain 60 4000;
            "office"%string := plain 60 4000 ]})].

(** Two proposals for parcel 1 in a long table. *)
Definition scenario_E : frame Z Proposal :=
  [(1, mkProposal (Some "A"%string) (plain 50 2000));
   (1, mkProposal (Some "B"%string) (plain 80 2400))].

Definition example_sizes : series := {[ 1 := Fin 1000; 2 := Fin 1000 ]}.
Definition example_unit_sizes : series := {[ 1 := Fin 100; 2 := Fin 500 ]}.
Definition example_units : series := {[ 1 := Fin 0; 2 := Fin 1 ]}.

Definition example_developer (t : table) (fs : forms_spec) (tgt : Q)
    (long : bool) : Developer :=
  mkDeveloper t fs (Scalar (Fin tgt)) example_sizes example_unit_sizes
    example_units (Some 2020) (Fin 400) (Fin 400) (Fin 200000) true true None
    long.

Definition example_state (t : table) (fs : forms_spec) (tgt : Q)
    (long : bool) : state :=
  mkState (example_developer t fs tgt long) [] O.

Definition example_pick (st : @state nat) :=
  pick (spec_weighted_random_choice counter_draw)
    (spec_weighted_random_choice_multiparcel counter_draw) None None st.

(** A candidate row written by hand: the [parcel_id] column, the profit,
    the parcel size and the net units. *)
Definition pool_row (pid : option Z) (profit size units : Q) : Candidate :=
  mkCandidate
    (mkSized (mkProposal None (plain profit 0)) (Fin 400) (Fin size) (Fin 0)
       (Fin units) (Fin 0))
    (Fin units) pid None.

(** Scenarios A to C: three parcels of five net units each. *)
Definition scenario_C : frame Z Candidate :=
  [(1, pool_row None 100 1000 5);
   (2, pool_row None 200 1000 5);
   (3, pool_row None 50 1000 5)].

(** The pool of scenario E once the index is reset: both rows belong to
    parcel 1. *)
Definition pool_E : frame Z Candidate :=
  [(0, pool_row (Some 1) 50 1000 5);
   (1, pool_row (Some 1) 80 1000 6)].

(** A long pool of two parcels with one proposal each. *)
Definition pool_G : frame Z Candidate :=
  [(0, pool_row (Some 1) 50 1000 5);
   (1, pool_row (Some 2) 80 1000 6)].


Definition default_p (df : frame Z Candidate) : list fnum :=
  fst (_calculate_probabilities df None).

Definition example_select (df : frame Z Candidate) (st : @state nat) :=
  _select_buildings (spec_weighted_random_choice counter_draw)
    (spec_weighted_random_choice_multiparcel counter_draw)
    df (default_p df) None st.

Definition empty_table : table := Wide (mkWide [] []).

(** The three conditions on a row of the built set; [m] is the configured
    [max_parcel_size]. *)
Definition feasible_row (m : fnum) (c : Candidate) : Prop :=
  fpos (net_units c) = true
  /\ fpos (max_profit_far (attrs (proposal (sized c)))) = true
  /\ flt (col_parcel_size (sized c)) m = true.


Definition Qsum (l : list Q) : Q := foldr Qplus 0%Q l.




(** The net units of a row as a rational, 0 when they are not finite. *)
Definition units_q (c : Candidate) : Q :=
  match net_units c with
  | Fin q => q
  | _ => 0
  end.

(** A row of the pool with its probability, as the samplers hold it: its
    net units, and that they are finite and positive. *)
Definition entry_units (e : Z * Candidate * fnum) : Q :=
  units_q (snd (fst e)).

Definition pos_entry (e : Z * Candidate * fnum) : Prop :=
  net_units (snd (fst e)) = Fin (entry_units e) /\ (0 < entry_units e)%Q.

(** The parcel a row of the pool stands on: its [parcel_id] column. *)
Definition parcel_of (row : Z * Candidate) : option Z := parcel_id (snd row).


(** A row with a finite profit and a finite, positive parcel size. *)
Definition finite_row (c : Candidate) : Prop :=
  exists m s : Q,
    max_profit (attrs (proposal (sized c))) = Fin m
    /\ col_parcel_size (sized c) = Fin s
    /\ (0 < s)%Q.

(** The forms that compete: all the forms of the table, or those of the
    list, in the order of the table. *)
Definition allowed_forms (fe : wide) (forms : option (list string))
  : list string :=
  match forms with
  | None => columns fe
  | Some l => List.filter (fun c => bool_decide (c ∈ l)) (columns fe)
  end.

(** The entries of a parcel whose profits are [v]: the forms whose profit
    is not NaN, in the order of [cols]. *)
Definition live (v : string -> fnum) (cols : list string)
  : list (string * fnum) :=
  flat_map (fun c => if is_nan (v c) then [] else [(c, v c)]) cols.

(** [c] holds the first maximum of [v] over [cols]: the forms before it
    are strictly less profitable, the forms after it at most as
    profitable. *)
Definition first_max (v : string -> fnum) (cols : list string) (c : string)
  : Prop :=
  exists before after,
    cols = before ++ c :: after
    /\ is_nan (v c) = false
    /\ (forall c', In c' before -> is_nan (v c') = false ->
                   flt (v c') (v c) = true)
    /\ (forall c', In c' after -> is_nan (v c') = false ->
                   fle (v c') (v c) = true).

(** The cells of parcel [i] in a wide table. *)
Definition cells_of (f : wide) (i : Z) : gmap string Attrs :=
  match List.filter (has_label i) (wrows f) with
  | row :: _ => snd row
  | [] => ∅
  end.

(** The profit of form [c] on parcel [i]. *)
Definition profit_of (f : wide) (i : Z) (c : string) : fnum :=
  max_profit (cell c (cells_of f i)).

(** The attributes of a proposal that [_prepare_new_buildings] leaves as
    they are. *)
Definition kept_attrs (a : Attrs) : fnum * fnum * fnum * fnum :=
  (max_profit a, max_profit_far a, residential_sqft a,
   non_residential_sqft a).

(** The [form] column of the returned table: the form of the row when
    [forms] is a list, the configured value otherwise. *)
Definition written_form (fs : forms_spec) (pr : Proposal) : option string :=
  if is_form_list fs then form pr
  else match fs with OneForm f => Some f | _ => None end.

(** The parcels of the feasibility table. *)
Definition table_index (t : table) : list Z :=
  match t with
  | Wide f => index (wrows f)
  | Long l => index l
  end.

(** The attributes [pick] never assigns. *)
Definition same_config (d d' : Developer) : Prop :=
  forms d' = forms d
  /\ target_units d' = target_units d
  /\ parcel_size d' = parcel_size d
  /\ current_units d' = current_units d
  /\ year d' = year d
  /\ bldg_sqft_per_job d' = bldg_sqft_per_job d
  /\ min_unit_size d' = min_unit_size d
  /\ max_parcel_size d' = max_parcel_size d
  /\ drop_after_build d' = drop_after_build d
  /\ residential d' = residential d
  /\ keep_suboptimal d' = keep_suboptimal d
  /\ num_units_to_build d' = num_units_to_build d.

(** ** Configuration *)

(** A scalar of the configuration: a number or a boolean. *)
Inductive py_value : Type :=
| PFloat (x : fnum)
| PBool (b : bool).

(** A configuration value used as a number: [True] is 1, [False] is 0. *)
Definition as_number (v : py_value) : fnum :=
  match v with
  | PFloat x => x
  | PBool b => Fin (if b then 1 else 0)
  end.

(** A configuration value under [if]: a number is false when it is zero. *)
Definition truthy (v : py_value) : bool :=
  match v with
  | PBool b => b
  | PFloat (Fin q) => negb (Qeqb q 0)
  | PFloat _ => true
  end.

(** [to_dict]: the six configuration attributes. *)
Definition to_dict (d : Developer) : gmap string py_value :=
  list_to_map
    [("bldg_sqft_per_job"%string, PFloat (bldg_sqft_per_job d));
     ("min_unit_size"%string, PFloat (min_unit_size d));
     ("max_parcel_size"%string, PFloat (max_parcel_size d));
     ("drop_after_build"%string, PBool (drop_after_build d));
     ("residential"%string, PBool (residential d));
     ("keep_suboptimal"%string, PBool (keep_suboptimal d))].

(** [cfg[k]]. *)
Definition getitem (cfg : gmap string py_value) (k : string)
  : result py_value :=
  match cfg !! k with
  | Some v => Ok v
  | None => Raise KeyError
  end.

(** The keys [from_yaml] reads with [cfg[k]]. *)
Definition required_keys : list string :=
  ["bldg_sqft_per_job"; "min_unit_size"; "max_parcel_size";
   "drop_after_build"; "residential"]%string.

Section Yaml.
(** The YAML text, and the two functions of [developer.utils], which is
    not under src/: reading a dictionary from a text and writing one. *)
Context {yaml : Type}.
Variable yaml_to_dict : yaml -> result (gmap string py_value).
Variable convert_to_yaml : gmap string py_value -> yaml.

(** [from_yaml] with [yaml_str]; the table is the one [__init__] stores.
    [num_units_to_build] is not passed on and keeps its default. *)
Definition from_yaml (feasibility : table) (forms : forms_spec)
    (target_units : target) (parcel_size ave_unit_size current_units : series)
    (year : option Z) (yaml_str : yaml) (keep_suboptimal : bool)
  : result Developer :=
  let* cfg := yaml_to_dict yaml_str in
  let keep_suboptimal :=
    match cfg !! "keep_suboptimal"%string with
    | Some v => truthy v
    | None => keep_suboptimal
    end in
  let* sqft := getitem cfg "bldg_sqft_per_job" in
  let* min_size := getitem cfg "min_unit_size" in
  let* max_size := getitem cfg "max_parcel_size" in
  let* drop := getitem cfg "drop_after_build" in
  let* res := getitem cfg "residential" in
  Ok (mkDeveloper feasibility forms target_units parcel_size ave_unit_size
        current_units year (as_number sqft) (as_number min_size)
        (as_number max_size) (truthy drop) (truthy res) None
        keep_suboptimal).

(** [to_yaml] without [str_or_buffer]: the text is returned. *)
Definition to_yaml (d : Developer) : yaml := convert_to_yaml (to_dict d).
End Yaml.

(** For the examples the text is the dictionary itself. *)
Definition plain_yaml_to_dict (y : gmap string py_value)
  : result (gmap string py_value) := Ok y.

Definition plain_convert_to_yaml (cfg : gmap string py_value)
  : gmap string py_value := cfg.

(** [t'] is what is left of [t] when rows are dropped: the same columns
    and a subsequence of the rows. *)
Definition sub_table (t' t : table) : Prop :=
  match t', t with
  | Wide f', Wide f => columns f' = columns f /\ sublist (wrows f') (wrows f)
  | Long l', Long l => sublist l' l
  | _, _ => False
  end.

(** A parcel whose unit size is zero, with no minimum to lift it. *)
Definition zero_unit_state : @state nat :=
  mkState
    (mkDeveloper (Wide scenario_D) NoForms (Scalar (Fin 3)) example_sizes
       {[ 1 := Fin 0; 2 := Fin 500 ]} example_units (Some 2020) (Fin 400)
       (Fin 0) (Fin 200000) true true None false)
    [] O.

(** The state a first call leaves on scenario D. *)
Definition after_first_pick : @state nat :=
  fst (example_pick (example_state (Wide scenario_D) NoForms 3 false)).

(** Scenario D with a table of sub-targets. *)
Definition sub_target_state : @state nat :=
  mkState
    (mkDeveloper (Wide scenario_D) NoForms (SubTargets [Fin 2; Fin 1])
       example_sizes example_unit_sizes example_units (Some 2020) (Fin 400)
       (Fin 400) (Fin 200000) true true None false)
    [] O.

(** Scenario D without [drop_after_build]. *)
Definition keep_all_state : @state nat :=
  mkState
    (mkDeveloper (Wide scenario_D) NoForms (Scalar (Fin 3)) example_sizes
       example_unit_sizes example_units (Some 2020) (Fin 400) (Fin 400)
       (Fin 200000) false true None false)
    [] O.

(** Scenario D with a third parcel that only the residential form
    covers. *)
Definition scenario_F : wide :=
  mkWide ["residential"; "office"]%string
    (wrows scenario_D ++ [(3, {[ "residential"%string := plain 70 3000 ]})]).

(** A pool whose two densities cancel. *)
Definition cancelling_pool : frame Z Candidate :=
  [(1, pool_row None (-200) 1000 5); (2, pool_row None 200 1000 5)].

(** The configuration of the examples, and the same without the
    [residential] key. *)
Definition example_cfg : gmap string py_value :=
  to_dict (example_developer empty_table NoForms 3 false).

Definition broken_cfg : gmap string py_value :=
  delete "residential"%string example_cfg.

Definition short_cfg : gmap string py_value :=
  delete "keep_suboptimal"%string example_cfg.

Definition example_from_yaml (cfg : gmap string py_value) (keep : bool)
  : result Developer :=
  from_yaml plain_yaml_to_dict empty_table NoForms (Scalar (Fin 3))
    example_sizes example_unit_sizes example_units (Some 2020) cfg keep.

(** * Properties *)

(** ** Proof tools *)

Ltac break_match :=
  match goal with
  | |- context [match ?x with _ => _ end] =>
      let E := fresh "E" in destruct x eqn:E
  | H : context [match ?x with _ => _ end] |- _ =>
      let E := fresh "E" in destruct x eqn:E
  end.

Ltac unfold_monad :=
  unfold mbind, get_self, put_self, print, lift, ret, raise, when, with_gen
    in *.

Ltac break_all :=
  repeat first [ progress (unfold_monad; simplify_eq /=) | break_match ];
  try reflexivity.

(** ** Frames *)

Section FrameFacts.
Context {L : Type} `{EqDecision L} {A : Type}.

Lemma loc_In (df : frame L A) idx rows :
  loc df idx = Ok rows ->
  forall row, In row rows -> In row df /\ In (fst row) idx.
Proof.
  revert rows. induction idx as [|i idx IH]; simpl; intros rows Hloc row Hin.
  - injection Hloc as <-. destruct Hin.
  - destruct (List.filter (has_label i) df) as [|r0 rs] eqn:Ef;
      [discriminate|].
    destruct (loc df idx) as [rest|e]; [|discriminate].
    simpl in Hloc. injection Hloc as <-.
    change (r0 :: rs ++ rest) with ((r0 :: rs) ++ rest) in Hin.
    apply in_app_iff in Hin. destruct Hin as [Hin|Hin].
    + rewrite <- Ef in Hin. apply filter_In in Hin. destruct Hin as [Hd Hl].
      unfold has_label in Hl. apply bool_decide_eq_true in Hl. auto.
    + destruct (IH rest eq_refl row Hin). auto.
Qed.

Lemma drop_labels_index (df df' : frame L A) idx :
  drop_labels df idx = Ok df' ->
  (forall i, In i idx -> ~ In i (index df'))
  /\ (forall i, In i idx -> In i (index df))
  /\ (forall row, In row df' -> In row df).
Proof.
  unfold drop_labels. destruct (forallb _ idx) eqn:Hall; [|discriminate].
  intros [= <-]. split; [|split].
  2:{ intros i Hi. rewrite forallb_forall in Hall.
      specialize (Hall i Hi). apply existsb_exists in Hall.
      destruct Hall as (row & Hrow & Hl).
      apply bool_decide_eq_true in Hl. subst i.
      apply in_map, Hrow. }
  - intros i Hi Hin. unfold index in Hin. apply in_map_iff in Hin.
    destruct Hin as (row & <- & Hrow). apply filter_In in Hrow.
    destruct Hrow as [_ Hb]. apply negb_true_iff, bool_decide_eq_false in Hb.
    apply Hb, list_elem_of_In, Hi.
  - intros row Hrow. apply filter_In in Hrow. tauto.
Qed.
End FrameFacts.

(** ** The state through the steps of [pick] *)

Section StateFacts.
Context {rng : Type}.
Variables wrc wrcm : @sampler rng.

Lemma select_buildings_self df p csf (st : @state rng) :
  self (fst (_select_buildings wrc wrcm df p csf st)) = self st.
Proof.
  unfold _select_buildings; unfold_monad; simpl.
  break_all.
Qed.

Lemma prepare_new_buildings_state df idx (st : @state rng) :
  fst (_prepare_new_buildings df idx st) = st.
Proof.
  unfold _prepare_new_buildings; unfold_monad; simpl.
  destruct (loc df idx); reflexivity.
Qed.

Lemma drop_built_buildings_ave_unit_size idx (st : @state rng) :
  ave_unit_size (self (fst (_drop_built_buildings idx st)))
  = ave_unit_size (self st).
Proof.
  unfold _drop_built_buildings; unfold_monad; simpl.
  break_all.
Qed.

Lemma remove_infeasible_feasibility d df :
  feasibility (fst (_remove_infeasible_buildings d df)) = feasibility d.
Proof. destruct df; reflexivity. Qed.

Lemma remove_infeasible_keep_suboptimal d df :
  keep_suboptimal (fst (_remove_infeasible_buildings d df))
  = keep_suboptimal d.
Proof. destruct df; reflexivity. Qed.
End StateFacts.

Lemma fpos_not_fle_zero t : fpos t = true -> fle t (Fin 0) = false.
Proof.
  destruct t; simpl; try discriminate; try reflexivity.
  unfold fpos, flt, Qltb. destruct (Qle_bool q 0); simpl; congruence.
Qed.

(** ** Selection against the target *)

Section Selection.
Context {rng : Type}.
Variables wrc wrcm : @sampler rng.

(** C5: with a scalar target that is at most 0 and no custom selection
    function, the selection step raises nothing and selects no row,
    whatever the candidate pool. *)
Theorem select_nothing_for_nonpositive_target
    (df : frame Z Candidate) (p : list fnum) (st : @state rng) (t : fnum) :
  target_units (self st) = Scalar t ->
  fle t (Fin 0) = true ->
  exists st',
    _select_buildings wrc wrcm df p None st = (st', Ok [])
    /\ self st' = self st.
Proof.
  intros Ht Hle. unfold _select_buildings. unfold_monad. simpl.
  rewrite Ht, Hle.
  destruct (flt (sum_net_units df) t); simpl; eexists; eauto.
Qed.
End Selection.

(** ** [pick] step by step *)

Section PickSteps.
Context {rng : Type}.
Variables wrc wrcm : @sampler rng.

(** [pick] without the monad: the two early returns, the two places
    where it raises before the selection, and the last three steps. *)
Lemma pick_eq ptp csf (st : @state rng) :
  pick wrc wrcm ptp csf st =
  if table_empty (feasibility (self st))
  then (mkState (self st) (empty_warn :: printed st) (gen st), Ok None)
  else
    match table_of_buildings (self st) with
    | Raise e => (st, Raise e)
    | Ok df0 =>
        let d' := fst (_remove_infeasible_buildings (self st) df0) in
        let df := candidates (self st) df0 in
        if no_rows df
        then (mkState d' (empty_warn :: printed st) (gen st), Ok None)
        else
          match int (sum_net_units df) with
          | Raise e => (mkState d' (printed st) (gen st), Raise e)
          | Ok n =>
              let pdf :=
                _calculate_probabilities
                  (if keep_suboptimal d' then reset_index df else df) ptp in
              select_drop_prepare wrc wrcm d' (snd pdf) (fst pdf) csf
                (mkState d' (sum_of_net_units n :: printed st) (gen st))
          end
    end.
Proof.
  unfold pick, candidates. unfold_monad. simpl.
  destruct (table_empty _); [reflexivity|].
  destruct (table_of_buildings (self st)) as [df0|e]; [|reflexivity].
  destruct (_remove_infeasible_buildings (self st) df0) as [d' df1].
  simpl. destruct (no_rows _); [reflexivity|].
  destruct (int _); simpl; [|reflexivity].
  destruct (_calculate_probabilities _ _) as [p df4]. reflexivity.
Qed.

(** What the last three steps do when they return a table. *)
Lemma select_drop_prepare_inv d df p csf (st st' : @state rng) new_df :
  select_drop_prepare wrc wrcm d df p csf st = (st', Ok (Some new_df)) ->
  exists (build_idx : list Z) (rows : frame Z Candidate) (st1 : @state rng),
    _select_buildings wrc wrcm df p csf st = (st1, Ok build_idx)
    /\ loc df build_idx = Ok rows
    /\ new_df = map (new_building (self st') (has_parcel_id df)) rows
    /\ (if negb (keep_suboptimal d)
        then _drop_built_buildings build_idx st1 = (st', Ok tt)
        else st' = st1).
Proof.
  unfold select_drop_prepare. unfold_monad. intros H.
  destruct (_select_buildings wrc wrcm df p csf st)
    as [st1 [build_idx|e]] eqn:Es; [|discriminate].
  exists build_idx.
  assert (Hd : exists st2,
             (if negb (keep_suboptimal d)
              then _drop_built_buildings build_idx st1 = (st2, Ok tt)
              else st2 = st1)
             /\ (let (st5, r) := _prepare_new_buildings df build_idx st2 in
                 match r with
                 | Ok a => (st5, Ok (Some a))
                 | Raise e => (st5, Raise e)
                 end) = (st', Ok (Some new_df))).
  { destruct (negb (keep_suboptimal d)).
    - destruct (_drop_built_buildings build_idx st1) as [st2 [[]|e]];
        [|discriminate]. exists st2. split; [reflexivity | exact H].
    - exists st1. split; [reflexivity | exact H]. }
  destruct Hd as (st2 & Hdrop & Hprep).
  pose proof (prepare_new_buildings_state df build_idx st2) as Hst.
  destruct (_prepare_new_buildings df build_idx st2) as [st5 [a|e]] eqn:Ep;
    [|discriminate].
  simpl in Hst. subst st5. injection Hprep as -> ->.
  unfold _prepare_new_buildings in Ep. unfold_monad.
  destruct (loc df build_idx) as [rows|e]; [|discriminate].
  injection Ep as <-.
  exists rows, st1. repeat split; auto.
Qed.

Lemma select_drop_prepare_ave_unit_size d df p csf (st : @state rng) :
  ave_unit_size (self (fst (select_drop_prepare wrc wrcm d df p csf st)))
  = ave_unit_size (self st).
Proof.
  unfold select_drop_prepare. unfold_monad.
  pose proof (select_buildings_self wrc wrcm df p csf st) as Hs.
  destruct (_select_buildings wrc wrcm df p csf st) as [st1 [idx|e]];
    simpl in *; [|congruence].
  assert (Hp : forall st2 : @state rng,
             ave_unit_size (self st2) = ave_unit_size (self st1) ->
             ave_unit_size
               (self (fst (let (st5, r) :=
                             _prepare_new_buildings df idx st2 in
                           match r with
                           | Ok a => (st5, Ok (Some a))
                           | Raise e => (st5, Raise e)
                           end)))
             = ave_unit_size (self st)).
  { intros st2 H2.
    pose proof (prepare_new_buildings_state df idx st2) as Hp.
    destruct (_prepare_new_buildings df idx st2) as [st5 [a|e]];
      simpl in *; subst st5; congruence. }
  destruct (negb (keep_suboptimal d)).
  - pose proof (drop_built_buildings_ave_unit_size idx st1) as Hd.
    destruct (_drop_built_buildings idx st1) as [st2 [[]|e]];
      simpl in *; [|congruence].
    apply Hp, Hd.
  - apply Hp. reflexivity.
Qed.

Lemma select_drop_prepare_long d df p csf (st : @state rng) :
  keep_suboptimal d = true ->
  self (fst (select_drop_prepare wrc wrcm d df p csf st)) = self st.
Proof.
  intros Hk. unfold select_drop_prepare. unfold_monad. rewrite Hk. simpl.
  pose proof (select_buildings_self wrc wrcm df p csf st) as Hs.
  destruct (_select_buildings wrc wrcm df p csf st) as [st1 [idx|e]];
    simpl in *; [|congruence].
  pose proof (prepare_new_buildings_state df idx st1) as Hp.
  destruct (_prepare_new_buildings df idx st1) as [st5 [a|e]];
    simpl in *; subst st5; congruence.
Qed.
End PickSteps.

(** ** Effects of [pick] on the instance *)

Section PickEffects.
Context {rng : Type}.
Variables wrc wrcm : @sampler rng.

(** C10: in long mode a call to [pick] leaves [self.feasibility] as it
    was, whatever [drop_after_build] says and however the call ends. *)
Theorem pick_long_mode_keeps_feasibility
    (ptp : option (frame Z Candidate -> list fnum))
    (csf : option selection_func) (st : @state rng) :
  keep_suboptimal (self st) = true ->
  feasibility (self (fst (pick wrc wrcm ptp csf st)))
  = feasibility (self st).
Proof.
  intros Hk. rewrite pick_eq.
  destruct (table_empty _); [reflexivity|].
  destruct (table_of_buildings (self st)) as [df|e]; [|reflexivity].
  pose proof (remove_infeasible_feasibility (self st) df) as Hf.
  pose proof (remove_infeasible_keep_suboptimal (self st) df) as Hks.
  cbv zeta.
  destruct (no_rows _); [exact Hf|].
  destruct (int _); [|exact Hf].
  rewrite select_drop_prepare_long by congruence. exact Hf.
Qed.

(** C9, amended: a call to [pick] that gets past the empty-table check
    and starts from a table of buildings with at least one row clamps
    the shared [ave_unit_size] series in place, however the call ends:
    every value below [min_unit_size] becomes [min_unit_size], the
    others stay, and no value below the minimum is left. *)
Theorem pick_clamps_ave_unit_size
    (ptp : option (frame Z Candidate -> list fnum))
    (csf : option selection_func) (st : @state rng)
    (df : frame Z Proposal) :
  table_empty (feasibility (self st)) = false ->
  table_of_buildings (self st) = Ok df ->
  df <> [] ->
  let m := min_unit_size (self st) in
  let after := ave_unit_size (self (fst (pick wrc wrcm ptp csf st))) in
  (forall i : Z,
      after !! i
      = (fun v => if flt v m then m else v) <$> ave_unit_size (self st) !! i)
  /\ (forall (i : Z) (v : fnum), after !! i = Some v -> flt v m = false).
Proof.
  intros He Hdf Hne m after.
  assert (Hafter : after = clamp m (ave_unit_size (self st))).
  { subst after. rewrite pick_eq, He, Hdf.
    assert (Ha : ave_unit_size
                   (fst (_remove_infeasible_buildings (self st) df))
                 = clamp m (ave_unit_size (self st)))
      by (destruct df; [contradiction | reflexivity]).
    cbv zeta.
    destruct (no_rows _); [exact Ha|].
    destruct (int _); [|exact Ha].
    rewrite select_drop_prepare_ave_unit_size. exact Ha. }
  rewrite Hafter. unfold clamp. split.
  - intros i. apply lookup_fmap.
  - intros i v. rewrite lookup_fmap.
    destruct (ave_unit_size (self st) !! i) as [w|]; simpl; [|discriminate].
    intros [= <-]. destruct (flt w m) eqn:Hw; [|exact Hw].
    destruct m; try reflexivity. unfold flt, Qltb.
    rewrite (proj2 (Qle_bool_iff q q)) by apply Qle_refl. reflexivity.
Qed.

(** C8: when the feasibility table is empty, or the table of buildings
    is empty once the infeasible rows and the rows without net units
    are gone, [pick] raises nothing, prints the warning and returns
    [None], which is not an empty table of buildings. *)
Theorem pick_nothing_to_build
    (ptp : option (frame Z Candidate -> list fnum))
    (csf : option selection_func) (st : @state rng) :
  table_empty (feasibility (self st)) = true
  \/ (exists df : frame Z Proposal,
        table_of_buildings (self st) = Ok df
        /\ candidates (self st) df = []) ->
  exists st',
    pick wrc wrcm ptp csf st = (st', Ok None)
    /\ printed st' = empty_warn :: printed st
    /\ Ok (A := option (list Building)) None <> Ok (Some []).
Proof.
  intros H. rewrite pick_eq.
  destruct (table_empty (feasibility (self st))) eqn:He.
  - eexists. split; [reflexivity|]. split; [reflexivity | discriminate].
  - destruct H as [H | (df & Hdf & Hnil)]; [discriminate|].
    rewrite Hdf. cbv zeta. rewrite Hnil. simpl.
    eexists. split; [reflexivity|]. split; [reflexivity | discriminate].
Qed.
End PickEffects.

(** ** The rows that reach the selection *)

Lemma candidates_feasible d df0 row :
  In row (candidates d df0) ->
  feasible_row (max_parcel_size d) (snd row)
  /\ parcel_id (snd row) = None
  /\ exists p, In (fst row, p) df0.
Proof.
  unfold candidates, _calculate_net_units, _remove_infeasible_buildings.
  destruct df0 as [|r0 df0]; [intros []|].
  set (rows := r0 :: df0). clearbody rows. simpl.
  match goal with
  | |- In row match ?l with _ => _ end -> _ => destruct l eqn:El
  end; [intros []|].
  rewrite <- El. clear El. intros Hin.
  apply filter_In in Hin. destruct Hin as [Hin Hnet].
  apply in_map_iff in Hin. destruct Hin as ([i s] & <- & Hin).
  apply in_map_iff in Hin.
  destruct Hin as ([i' [pr [[aus ps] cu]]] & Heq & Hin).
  injection Heq as -> <-.
  apply filter_In in Hin. destruct Hin as [Hin Hps].
  apply in_map_iff in Hin. destruct Hin as ([i' pr'] & Heq & Hin).
  injection Heq as -> -> <- <- <-.
  apply filter_In in Hin. destruct Hin as [Hin Hfar].
  simpl in *. repeat split; eauto.
Qed.

Lemma reset_index_In (df : frame Z Candidate) row :
  In row (reset_index df) ->
  exists row0, In row0 df
               /\ snd row = set_parcel_id (fst row0) (snd row0).
Proof.
  unfold reset_index. intros Hin. apply list_elem_of_In in Hin.
  apply elem_of_lookup_imap in Hin. destruct Hin as (k & row0 & -> & Hk).
  exists row0. split; [|reflexivity].
  apply list_elem_of_In. eapply list_elem_of_lookup_2, Hk.
Qed.

Lemma calculate_probabilities_In df ptp row :
  In row (snd (_calculate_probabilities df ptp)) ->
  exists row0, In row0 df
               /\ fst row = fst row0
               /\ sized (snd row) = sized (snd row0)
               /\ net_units (snd row) = net_units (snd row0)
               /\ parcel_id (snd row) = parcel_id (snd row0).
Proof.
  unfold _calculate_probabilities. destruct ptp as [func|]; simpl.
  - intros Hin. exists row. auto.
  - intros Hin. apply in_map_iff in Hin. destruct Hin as (row0 & <- & Hin).
    exists row0. auto.
Qed.

(** The rows handed to the selection, traced back to the candidates. *)
Lemma selection_pool_In (keep : bool) df ptp row :
  In row (snd (_calculate_probabilities
                 (if keep then reset_index df else df) ptp)) ->
  exists row0, In row0 df
               /\ sized (snd row) = sized (snd row0)
               /\ net_units (snd row) = net_units (snd row0)
               /\ (if keep then parcel_id (snd row) = Some (fst row0)
                   else fst row = fst row0
                        /\ parcel_id (snd row) = parcel_id (snd row0)).
Proof.
  intros Hin. apply calculate_probabilities_In in Hin.
  destruct Hin as (row1 & Hin & Hi & Hs & Hn & Hp). destruct keep.
  - apply reset_index_In in Hin. destruct Hin as (row0 & Hin & Heq).
    exists row0. rewrite Hs, Hn, Hp, Heq. auto.
  - exists row1. auto.
Qed.

Section BuiltRows.
Context {rng : Type}.
Variables wrc wrcm : @sampler rng.

(** C1: every row of the table [pick] returns has [net_units > 0],
    [max_profit_far > 0] and [parcel_size < max_parcel_size], whatever
    the feasibility table, the configuration, the samplers and the
    functions passed by the caller. *)
Theorem pick_rows_feasible
    (ptp : option (frame Z Candidate -> list fnum))
    (csf : option selection_func) (st st' : @state rng)
    (new_df : list Building) :
  pick wrc wrcm ptp csf st = (st', Ok (Some new_df)) ->
  forall b : Building,
    In b new_df ->
    feasible_row (max_parcel_size (self st)) (candidate b).
Proof.
  rewrite pick_eq. intros Hpick b Hb.
  destruct (table_empty _); [discriminate|].
  destruct (table_of_buildings (self st)) as [df0|e]; [|discriminate].
  cbv zeta in Hpick.
  destruct (no_rows _); [discriminate|].
  destruct (int _); [|discriminate].
  apply select_drop_prepare_inv in Hpick.
  destruct Hpick as (idx & rows & st1 & _ & Hloc & -> & _).
  apply in_map_iff in Hb. destruct Hb as (row & <- & Hrow).
  apply (loc_In _ _ _ Hloc) in Hrow. destruct Hrow as [Hrow _].
  apply selection_pool_In in Hrow.
  destruct Hrow as (row0 & Hin & Hs & Hn & _).
  apply candidates_feasible in Hin. destruct Hin as [(H1 & H2 & H3) _].
  unfold feasible_row, new_building. simpl. rewrite Hs, Hn. auto.
Qed.
End BuiltRows.

(** ** Dropping what was built *)

Lemma same_config_refl d : same_config d d.
Proof. repeat split. Qed.

Lemma same_config_trans d1 d2 d3 :
  same_config d1 d2 -> same_config d2 d3 -> same_config d1 d3.
Proof. unfold same_config. intuition congruence. Qed.

Lemma drop_rows_index t t' idx :
  drop_rows t idx = Ok t' ->
  (forall i, In i idx -> ~ In i (table_index t'))
  /\ (forall i, In i idx -> In i (table_index t)).
Proof.
  destruct t as [f|l]; simpl.
  - destruct (drop_labels (wrows f) idx) as [rows|e] eqn:Ed; [|discriminate].
    intros [= <-]. apply drop_labels_index in Ed. simpl. tauto.
  - destruct (drop_labels l idx) as [rows|e] eqn:Ed; [|discriminate].
    intros [= <-]. apply drop_labels_index in Ed. simpl. tauto.
Qed.

Section Dropping.
Context {rng : Type}.
Variables wrc wrcm : @sampler rng.

Lemma drop_built_buildings_inv idx (st st' : @state rng) :
  _drop_built_buildings idx st = (st', Ok tt) ->
  same_config (self st) (self st')
  /\ (drop_after_build (self st) = true ->
      (forall i, In i idx -> ~ In i (table_index (feasibility (self st'))))
      /\ (forall i, In i idx -> In i (table_index (feasibility (self st))))).
Proof.
  unfold _drop_built_buildings. unfold_monad. simpl.
  destruct (drop_after_build (self st)) eqn:Hd.
  - destruct (drop_rows (feasibility (self st)) idx) as [t|e] eqn:Et;
      simpl; [|discriminate].
    intros [= <-]. simpl. split; [repeat split|].
    intros _. eapply drop_rows_index, Et.
  - intros [= <-]. split; [apply same_config_refl | discriminate].
Qed.

Lemma drop_built_buildings_config idx (st : @state rng) :
  same_config (self st) (self (fst (_drop_built_buildings idx st))).
Proof.
  unfold _drop_built_buildings. unfold_monad. simpl.
  destruct (drop_after_build (self st)); [|apply same_config_refl].
  destruct (drop_rows (feasibility (self st)) idx); simpl; repeat split.
Qed.

Lemma remove_infeasible_config d df :
  same_config d (fst (_remove_infeasible_buildings d df)).
Proof. destruct df; repeat split. Qed.

Lemma select_drop_prepare_config d df p csf (st : @state rng) :
  same_config (self st)
    (self (fst (select_drop_prepare wrc wrcm d df p csf st))).
Proof.
  unfold select_drop_prepare. unfold_monad.
  pose proof (select_buildings_self wrc wrcm df p csf st) as Hs.
  destruct (_select_buildings wrc wrcm df p csf st) as [st1 [idx|e]];
    simpl in *; [|rewrite Hs; apply same_config_refl].
  rewrite <- Hs.
  assert (Hp : forall st2 : @state rng,
             same_config (self st1) (self st2) ->
             same_config (self st1)
               (self (fst (let (st5, r) :=
                             _prepare_new_buildings df idx st2 in
                           match r with
                           | Ok a => (st5, Ok (Some a))
                           | Raise e => (st5, Raise e)
                           end)))).
  { intros st2 H2.
    pose proof (prepare_new_buildings_state df idx st2) as Hp.
    destruct (_prepare_new_buildings df idx st2) as [st5 [a|e]];
      simpl in *; subst st5; exact H2. }
  destruct (negb (keep_suboptimal d)).
  - pose proof (drop_built_buildings_config idx st1) as Hd.
    destruct (_drop_built_buildings idx st1) as [st2 [[]|e]];
      simpl in *; [|exact Hd].
    apply Hp, Hd.
  - apply Hp, same_config_refl.
Qed.

Lemma pick_config ptp csf (st : @state rng) :
  same_config (self st) (self (fst (pick wrc wrcm ptp csf st))).
Proof.
  rewrite pick_eq.
  destruct (table_empty _); [apply same_config_refl|].
  destruct (table_of_buildings (self st)) as [df0|e];
    [|apply same_config_refl].
  pose proof (remove_infeasible_config (self st) df0) as Hr.
  cbv zeta.
  destruct (no_rows _); [exact Hr|].
  destruct (int _); [|exact Hr].
  eapply same_config_trans; [exact Hr|].
  match goal with
  | |- context [select_drop_prepare _ _ ?d ?df ?p ?c ?s] =>
      exact (select_drop_prepare_config d df p c s)
  end.
Qed.

(** In non-long mode the rows [pick] returns carry the labels selected,
    and with [drop_after_build] those labels are in the feasibility
    table before the call and gone from it after. *)
Lemma pick_built_labels ptp csf (st st' : @state rng) new_df :
  keep_suboptimal (self st) = false ->
  drop_after_build (self st) = true ->
  pick wrc wrcm ptp csf st = (st', Ok (Some new_df)) ->
  forall b, In b new_df ->
    exists i, new_parcel_id b = Some i
              /\ In i (table_index (feasibility (self st)))
              /\ ~ In i (table_index (feasibility (self st'))).
Proof.
  intros Hk Hd. rewrite pick_eq. intros Hpick b Hb.
  destruct (table_empty _); [discriminate|].
  destruct (table_of_buildings (self st)) as [df0|e]; [|discriminate].
  pose proof (remove_infeasible_config (self st) df0) as Hc.
  pose proof (remove_infeasible_feasibility (self st) df0) as Hf.
  cbv zeta in Hpick.
  destruct (no_rows _); [discriminate|].
  destruct (int _); [|discriminate].
  set (d' := fst (_remove_infeasible_buildings (self st) df0)) in *.
  assert (Hk' : keep_suboptimal d' = false)
    by (destruct Hc as (_&_&_&_&_&_&_&_&_&_&->&_); exact Hk).
  assert (Hd' : drop_after_build d' = true)
    by (destruct Hc as (_&_&_&_&_&_&_&_&->&_); exact Hd).
  rewrite Hk' in Hpick.
  apply select_drop_prepare_inv in Hpick.
  destruct Hpick as (idx & rows & st1 & Hsel & Hloc & -> & Hdrop).
  rewrite Hk' in Hdrop. simpl in Hdrop.
  match type of Hsel with
  | _select_buildings _ _ ?df ?p _ ?s = _ =>
      pose proof (select_buildings_self wrc wrcm df p csf s) as Hs
  end.
  rewrite Hsel in Hs. simpl in Hs.
  apply drop_built_buildings_inv in Hdrop. destruct Hdrop as [_ Hdrop].
  rewrite Hs in Hdrop. specialize (Hdrop Hd'). destruct Hdrop as [Hout Hin].
  apply in_map_iff in Hb. destruct Hb as (row & <- & Hrow).
  apply (loc_In _ _ _ Hloc) in Hrow. destruct Hrow as [Hrow Hidx].
  exists (fst row). rewrite <- Hf. split; [|split; auto].
  unfold new_building. simpl.
  match goal with
  | |- (if has_parcel_id ?df then _ else _) = _ =>
      assert (Hnone : forall r, In r df -> parcel_id (snd r) = None)
  end.
  { intros r Hr. apply (selection_pool_In false) in Hr.
    destruct Hr as (r0 & Hr0 & _ & _ & _ & ->).
    apply candidates_feasible in Hr0. tauto. }
  match goal with
  | |- (if has_parcel_id ?df then _ else _) = _ =>
      destruct df as [|r df']; [reflexivity|]
  end.
  simpl. rewrite (Hnone r) by (left; reflexivity). reflexivity.
Qed.

(** C6: in non-long mode with [drop_after_build], every label selected
    by a call to [pick] is out of [self.feasibility] when the call
    returns, and a second call on the same instance selects none of the
    parcels of the first. *)
Theorem pick_never_reselects
    (ptp1 : option (frame Z Candidate -> list fnum))
    (csf1 : option selection_func) (st st1 : @state rng)
    (built1 : list Building) :
  keep_suboptimal (self st) = false ->
  drop_after_build (self st) = true ->
  pick wrc wrcm ptp1 csf1 st = (st1, Ok (Some built1)) ->
  (forall b, In b built1 ->
     exists i, new_parcel_id b = Some i
               /\ ~ In i (table_index (feasibility (self st1))))
  /\ (forall ptp2 csf2 (st2 : @state rng) built2,
        pick wrc wrcm ptp2 csf2 st1 = (st2, Ok (Some built2)) ->
        forall b1 b2, In b1 built1 -> In b2 built2 ->
          new_parcel_id b1 <> new_parcel_id b2).
Proof.
  intros Hk Hd H1.
  pose proof (pick_config ptp1 csf1 st) as Hc. rewrite H1 in Hc.
  simpl in Hc.
  assert (Hk1 : keep_suboptimal (self st1) = false)
    by (destruct Hc as (_&_&_&_&_&_&_&_&_&_&->&_); exact Hk).
  assert (Hd1 : drop_after_build (self st1) = true)
    by (destruct Hc as (_&_&_&_&_&_&_&_&->&_); exact Hd).
  split.
  - intros b Hb.
    destruct (pick_built_labels _ _ _ _ _ Hk Hd H1 b Hb) as (i & Hi & _ & Ho).
    eauto.
  - intros ptp2 csf2 st2 built2 H2 b1 b2 Hb1 Hb2 Heq.
    destruct (pick_built_labels _ _ _ _ _ Hk Hd H1 b1 Hb1)
      as (i & Hi & _ & Hout).
    destruct (pick_built_labels _ _ _ _ _ Hk1 Hd1 H2 b2 Hb2)
      as (j & Hj & Hin & _).
    rewrite Hi, Hj in Heq. injection Heq as ->. contradiction.
Qed.
End Dropping.

(** ** The default probabilities *)











(** ** Order on float cells *)

Lemma Qltb_lt a b : Qltb a b = true <-> (a < b)%Q.
Proof.
  unfold Qltb. rewrite negb_true_iff. split.
  - intros H. apply Qnot_le_lt. intros Hle.
    apply Qle_bool_iff in Hle. congruence.
  - intros H. destruct (Qle_bool b a) eqn:E; [|reflexivity].
    apply Qle_bool_iff in E. exfalso. exact (Qlt_not_le _ _ H E).
Qed.

Lemma Qltb_false_le a b : Qltb a b = false -> Qle_bool b a = true.
Proof. unfold Qltb. rewrite negb_false_iff. auto. Qed.

Lemma flt_false_fle a b :
  is_nan a = false -> is_nan b = false -> flt a b = false -> fle b a = true.
Proof.
  destruct a, b; simpl; try discriminate; try reflexivity.
  intros _ _. apply Qltb_false_le.
Qed.

Lemma flt_trans a b c : flt a b = true -> flt b c = true -> flt a c = true.
Proof.
  destruct a, b, c; simpl; try discriminate; try reflexivity.
  rewrite !Qltb_lt. apply Qlt_trans.
Qed.

Lemma fle_flt_trans a b c :
  fle a b = true -> flt b c = true -> flt a c = true.
Proof.
  destruct a, b, c; simpl; try discriminate; try reflexivity.
  rewrite !Qltb_lt, Qle_bool_iff. apply Qle_lt_trans.
Qed.

Lemma flt_not_nan a b : flt a b = true -> is_nan a = false /\ is_nan b = false.
Proof. destruct a, b; simpl; try discriminate; auto. Qed.

(** ** The form of greatest profit *)

Section Idxmax.
(** The profit of each form on one parcel. *)
Variable v : string -> fnum.

Local Abbreviation live := (live v).
Local Abbreviation first_max := (first_max v).

Lemma first_max_cons c0 cols c :
  first_max cols c ->
  (is_nan (v c0) = false -> flt (v c0) (v c) = true) ->
  first_max (c0 :: cols) c.
Proof.
  intros (before & after & -> & Hn & Hbef & Haft) H0.
  exists (c0 :: before), after.
  split; [reflexivity|]. split; [exact Hn|]. split; [|exact Haft].
  intros c' [<-|Hin] Hn'; auto.
Qed.

Lemma first_max_head b cols :
  is_nan (v b) = false ->
  (forall c', In c' cols -> is_nan (v c') = false ->
              fle (v c') (v b) = true) ->
  first_max (b :: cols) b.
Proof.
  intros Hb Hle. exists [], cols.
  split; [reflexivity|]. split; [exact Hb|]. split; [intros ? []|exact Hle].
Qed.

Lemma argmax_live b cols :
  is_nan (v b) = false ->
  let r := argmax (b, v b) (live cols) in
  snd r = v (fst r)
  /\ ((fst r = b
       /\ forall c', In c' cols -> is_nan (v c') = false ->
                     fle (v c') (v b) = true)
      \/ (flt (v b) (v (fst r)) = true /\ first_max cols (fst r))).
Proof.
  revert b. induction cols as [|c cols IH]; intros b Hb; simpl.
  - split; [reflexivity|]. left. split; [reflexivity | intros ? []].
  - destruct (is_nan (v c)) eqn:Hc; simpl.
    + destruct (IH b Hb) as [Hs [[Hr Hle] | [Hlt Hfm]]];
        (split; [exact Hs|]).
      * left. split; [exact Hr|]. intros c' [<-|Hin] Hn; [congruence|auto].
      * right. split; [exact Hlt|].
        apply first_max_cons; [exact Hfm | congruence].
    + destruct (flt (v b) (v c)) eqn:Hbc.
      * destruct (IH c Hc) as [Hs [[Hr Hle] | [Hlt Hfm]]];
          (split; [exact Hs|]); right.
        -- rewrite Hr. split; [exact Hbc|].
           apply first_max_head; assumption.
        -- split; [eapply flt_trans; eauto|].
           apply first_max_cons; [exact Hfm | auto].
      * apply flt_false_fle in Hbc; [|assumption..].
        destruct (IH b Hb) as [Hs [[Hr Hle] | [Hlt Hfm]]];
          (split; [exact Hs|]).
        -- left. split; [exact Hr|]. intros c' [<-|Hin] Hn; auto.
        -- right. split; [exact Hlt|].
           apply first_max_cons; [exact Hfm|].
           intros _. eapply fle_flt_trans; eauto.
Qed.

Lemma idxmax_live cols :
  (exists c, In c cols /\ is_nan (v c) = false) ->
  exists c, idxmax (live cols) = Some c /\ first_max cols c.
Proof.
  induction cols as [|b cols IH]; intros (c & Hin & Hc); [destruct Hin|].
  simpl. destruct (is_nan (v b)) eqn:Hb; simpl.
  - destruct Hin as [<-|Hin]; [congruence|].
    destruct IH as (c0 & Hidx & Hfm); [eauto|].
    exists c0. split; [exact Hidx|].
    apply first_max_cons; [exact Hfm | congruence].
  - destruct (argmax_live b cols Hb) as [_ [[Hr Hle] | [Hlt Hfm]]].
    + eexists. split; [reflexivity|]. rewrite Hr.
      apply first_max_head; assumption.
    + eexists. split; [reflexivity|].
      apply first_max_cons; [exact Hfm | auto].
Qed.
End Idxmax.

(** ** Frames with distinct labels *)

Section DistinctLabels.
Context {L : Type} `{EqDecision L} {A : Type}.

Lemma index_filter_incl (P : L * A -> bool) (l : frame L A) i :
  In i (index (List.filter P l)) -> In i (index l).
Proof.
  unfold index. rewrite !in_map_iff. intros (row & Hi & Hrow).
  apply filter_In in Hrow. exists row. tauto.
Qed.

Lemma NoDup_index_filter (P : L * A -> bool) (l : frame L A) :
  NoDup (index l) -> NoDup (index (List.filter P l)).
Proof.
  induction l as [|row l IH]; simpl; [auto|].
  intros Hnd. apply NoDup_cons in Hnd. destruct Hnd as [Hnotin Hnd].
  destruct (P row); simpl; [|auto].
  apply NoDup_cons. split; [|auto].
  rewrite list_elem_of_In in *.
  intros Hin. apply Hnotin. eapply index_filter_incl, Hin.
Qed.

Lemma filter_has_label_nil (l : frame L A) k :
  ~ In k (index l) -> List.filter (has_label k) l = [].
Proof.
  induction l as [|row l IH]; simpl; [reflexivity|].
  intros Hnotin. unfold has_label at 1.
  destruct (bool_decide_reflect (fst row = k)) as [Heq|Hne].
  - exfalso. apply Hnotin. left. exact Heq.
  - apply IH. intros Hin. apply Hnotin. right. exact Hin.
Qed.

Lemma filter_has_label_single (l : frame L A) k a :
  NoDup (index l) -> In (k, a) l -> List.filter (has_label k) l = [(k, a)].
Proof.
  induction l as [|row l IH]; simpl; [intros _ []|].
  intros Hnd Hin. apply NoDup_cons in Hnd. destruct Hnd as [Hnotin Hnd].
  rewrite list_elem_of_In in Hnotin.
  unfold has_label at 1.
  destruct (bool_decide_reflect (fst row = k)) as [Heq|Hne].
  - destruct Hin as [->|Hin].
    + rewrite filter_has_label_nil by exact Hnotin. reflexivity.
    + exfalso. apply Hnotin. rewrite Heq.
      change k with (fst (k, a)). apply in_map, Hin.
  - destruct Hin as [->|Hin]; [contradiction Hne; reflexivity|].
    apply IH; assumption.
Qed.

(** [loc] when every label asked for names one row. *)
Lemma loc_single (l : frame L A) (g : L -> A) idx :
  (forall k, In k idx -> List.filter (has_label k) l = [(k, g k)]) ->
  loc l idx = Ok (map (fun k => (k, g k)) idx).
Proof.
  induction idx as [|k idx IH]; simpl; [reflexivity|].
  intros Hall. rewrite (Hall k) by (left; reflexivity).
  rewrite IH by (intros k' Hk'; apply Hall; right; exact Hk').
  reflexivity.
Qed.
End DistinctLabels.

Lemma NoDup_product {A B : Type} (la : list A) (lb : list B) :
  NoDup la -> NoDup lb ->
  NoDup (flat_map (fun a => map (pair a) lb) la).
Proof.
  intros Ha Hb. induction la as [|a la IH]; simpl; [constructor|].
  apply NoDup_cons in Ha. destruct Ha as [Hnotin Ha].
  rewrite list_elem_of_In in Hnotin.
  apply NoDup_app. split; [|split].
  - apply (NoDup_fmap_2 (pair a)), Hb.
  - intros [a' b] Hin1 Hin2. apply list_elem_of_In in Hin1, Hin2.
    apply in_map_iff in Hin1. destruct Hin1 as (b' & [= <- <-] & _).
    apply in_flat_map in Hin2. destruct Hin2 as (a'' & Hin & Hin2).
    apply in_map_iff in Hin2. destruct Hin2 as (b'' & [= <- <-] & _).
    contradiction.
  - apply IH, Ha.
Qed.

(** ** The order of the form labels *)

Lemma string_compare_trans a : forall b c,
  String.compare a b <> Gt -> String.compare b c <> Gt ->
  String.compare a c <> Gt.
Proof.
  induction a as [|x a IH]; intros [|y b] [|z c]; simpl; try congruence.
  unfold Ascii.compare.
  destruct (N.compare_spec (Ascii.N_of_ascii x) (Ascii.N_of_ascii y))
    as [Exy|Lxy|Gxy];
    destruct (N.compare_spec (Ascii.N_of_ascii y) (Ascii.N_of_ascii z))
      as [Eyz|Lyz|Gyz];
    destruct (N.compare_spec (Ascii.N_of_ascii x) (Ascii.N_of_ascii z))
      as [Exz|Lxz|Gxz];
    try congruence; try lia; intros; try congruence.
  eapply IH; eauto.
Qed.

#[global] Instance label_le_trans : Transitive label_le.
Proof.
  intros a b c. unfold label_le, String.leb. intros H1 H2.
  pose proof (string_compare_trans a b c) as H.
  destruct (String.compare a b); destruct (String.compare b c);
    destruct (String.compare a c); try congruence;
    exfalso; apply H; congruence.
Qed.

#[global] Instance label_le_total : Total label_le.
Proof. intros a b. apply String.leb_total. Qed.

Lemma label_le_refl a : label_le a a.
Proof. destruct (label_le_total a a); assumption. Qed.

Lemma sorted_forms_In l c : In c (sorted_forms l) <-> In c l.
Proof.
  unfold sorted_forms.
  rewrite <- !list_elem_of_In, merge_sort_Permutation. reflexivity.
Qed.

Lemma sorted_forms_NoDup l : NoDup l -> NoDup (sorted_forms l).
Proof. unfold sorted_forms. rewrite merge_sort_Permutation. auto. Qed.

(** In the sorted list a form comes before the forms that follow it. *)
Lemma sorted_forms_split l before c after :
  sorted_forms l = before ++ c :: after ->
  forall c', In c' after -> label_le c c'.
Proof.
  intros Hsplit c' Hin.
  pose proof (StronglySorted_merge_sort label_le l) as Hs.
  fold (sorted_forms l) in Hs. rewrite Hsplit in Hs.
  apply StronglySorted_app in Hs. destruct Hs as (_ & _ & Hs).
  apply StronglySorted_cons in Hs. destruct Hs as [Hall _].
  rewrite List.Forall_forall in Hall. apply Hall. exact Hin.
Qed.

(** ** Reshaping a wide table with distinct parcels and forms *)

Section Reshaping.
Variable f : wide.
Hypothesis rows_distinct : NoDup (index (wrows f)).
Hypothesis cols_distinct : NoDup (columns f).

Lemma cells_of_In i cells : In (i, cells) (wrows f) -> cells_of f i = cells.
Proof.
  intros Hin. unfold cells_of.
  rewrite (filter_has_label_single _ _ _ rows_distinct Hin). reflexivity.
Qed.

Lemma stack_In i c a :
  In ((i, c), a) (stack f) <->
  all_nan a = false /\ In c (columns f) /\ In i (index (wrows f))
  /\ a = cell c (cells_of f i).
Proof.
  unfold stack. rewrite filter_In, in_flat_map. simpl. split.
  - intros [([j cells] & Hrow & Hin) Hnan].
    apply in_map_iff in Hin. destruct Hin as (c' & [= -> -> <-] & Hc).
    simpl. rewrite (cells_of_In _ _ Hrow). apply negb_true_iff in Hnan.
    repeat split; auto. change i with (fst (i, cells)). apply in_map, Hrow.
  - intros (Hnan & Hc & Hi & ->). split; [|rewrite Hnan; reflexivity].
    apply in_map_iff in Hi. destruct Hi as ([j cells] & Hj & Hrow).
    simpl in Hj. subst j. exists (i, cells). split; [exact Hrow|].
    apply in_map_iff. exists c. simpl.
    rewrite (cells_of_In _ _ Hrow). auto.
Qed.

Lemma stack_index_NoDup : NoDup (index (stack f)).
Proof.
  unfold stack. apply NoDup_index_filter.
  assert (Heq : forall rows : frame Z (gmap string Attrs),
             index (flat_map
                      (fun row => map (fun c => ((fst row, c), cell c (snd row)))
                                    (columns f)) rows)
             = flat_map (fun i => map (pair i) (columns f)) (index rows)).
  { induction rows as [|row rows IH]; simpl; [reflexivity|].
    unfold index in *. rewrite map_app, IH, List.map_map. reflexivity. }
  rewrite Heq. apply NoDup_product; assumption.
Qed.

Lemma profit_entries_In i c x :
  In ((i, c), x) (profit_entries f) <->
  is_nan x = false /\ In c (columns f) /\ In i (index (wrows f))
  /\ x = profit_of f i c.
Proof.
  unfold profit_entries, profit_of. rewrite filter_In, in_map_iff. simpl.
  split.
  - intros [([[j c'] a] & [= -> -> <-] & Hin) Hnan].
    apply stack_In in Hin. destruct Hin as (_ & Hc & Hi & ->).
    apply negb_true_iff in Hnan. auto.
  - intros (Hnan & Hc & Hi & ->). split; [|rewrite Hnan; reflexivity].
    exists ((i, c), cell c (cells_of f i)). split; [reflexivity|].
    apply stack_In. repeat split; auto.
    unfold all_nan. rewrite Hnan. reflexivity.
Qed.

Lemma profit_entries_NoDup : NoDup (index (profit_entries f)).
Proof.
  unfold profit_entries. apply NoDup_index_filter.
  unfold index. rewrite List.map_map. simpl. apply stack_index_NoDup.
Qed.

Lemma profit_row_live i :
  In i (index (wrows f)) ->
  profit_row f i = live (profit_of f i) (sorted_forms (columns f)).
Proof.
  intros Hi. unfold profit_row, live.
  assert (Hext : forall cols, (forall c, In c cols -> In c (columns f)) ->
             flat_map
               (fun c => map (fun e : Z * string * fnum => (c, snd e))
                           (List.filter (has_label (i, c)) (profit_entries f)))
               cols
             = flat_map
                 (fun c => if is_nan (profit_of f i c) then []
                           else [(c, profit_of f i c)]) cols).
  { induction cols as [|c cols IH]; intros Hincl; simpl; [reflexivity|].
    rewrite IH by (intros c' Hc'; apply Hincl; right; exact Hc').
    f_equal. destruct (is_nan (profit_of f i c)) eqn:Hnan.
    - rewrite filter_has_label_nil; [reflexivity|].
      unfold index. rewrite in_map_iff. intros ([[j c'] x] & [= -> ->] & Hin).
      apply profit_entries_In in Hin. destruct Hin as (Hx & _ & _ & ->).
      congruence.
    - rewrite (filter_has_label_single _ (i, c) (profit_of f i c)).
      + reflexivity.
      + apply profit_entries_NoDup.
      + apply profit_entries_In. repeat split; auto.
        apply Hincl. left. reflexivity. }
  apply Hext. intros c Hc. apply sorted_forms_In, Hc.
Qed.

Lemma unstacked_index_In i :
  In i (unstacked_index f) <->
  In i (index (wrows f))
  /\ exists c, In c (columns f) /\ is_nan (profit_of f i c) = false.
Proof.
  unfold unstacked_index.
  rewrite <- list_elem_of_In, merge_sort_Permutation, elem_of_remove_dups,
    list_elem_of_In, in_map_iff.
  split.
  - intros ([[j c] x] & Hj & Hin). simpl in Hj. subst j.
    apply profit_entries_In in Hin. destruct Hin as (Hx & Hc & Hi & ->).
    eauto.
  - intros (Hi & c & Hc & Hnan). exists ((i, c), profit_of f i c).
    split; [reflexivity|]. apply profit_entries_In. auto.
Qed.

Lemma unstacked_index_NoDup : NoDup (unstacked_index f).
Proof.
  unfold unstacked_index. rewrite merge_sort_Permutation.
  apply NoDup_remove_dups.
Qed.
End Reshaping.

Lemma NoDup_list_filter {A} (P : A -> bool) (l : list A) :
  NoDup l -> NoDup (List.filter P l).
Proof.
  induction l as [|a l IH]; simpl; [auto|].
  intros Hnd. apply NoDup_cons in Hnd. destruct Hnd as [Hnotin Hnd].
  destruct (P a); [|auto]. apply NoDup_cons. split; [|auto].
  rewrite list_elem_of_In in *. rewrite filter_In. tauto.
Qed.

Lemma omap_pair_In (g : Z -> option string) (l : list Z) i c :
  In (i, c) (omap (fun i => option_map (pair i) (g i)) l)
  <-> In i l /\ g i = Some c.
Proof.
  rewrite <- !list_elem_of_In, list_elem_of_omap. split.
  - intros (j & Hj & Hg). destruct (g j) eqn:Egj; simpl in Hg; [|discriminate].
    injection Hg as -> ->. auto.
  - intros [Hi Hg]. exists i. rewrite Hg. auto.
Qed.

Lemma omap_pair_NoDup (g : Z -> option string) (l : list Z) :
  NoDup l -> NoDup (map fst (omap (fun i => option_map (pair i) (g i)) l)).
Proof.
  induction l as [|a l IH]; simpl; [constructor|].
  intros Hnd. apply NoDup_cons in Hnd. destruct Hnd as [Hnotin Hnd].
  destruct (g a) as [c|]; simpl; [|auto].
  apply NoDup_cons. split; [|auto].
  rewrite list_elem_of_In in *. rewrite in_map_iff.
  intros ([j c'] & Hj & Hin). simpl in Hj. subst j.
  apply omap_pair_In in Hin. tauto.
Qed.


(** ** The columns written on the new buildings *)

Lemma new_building_columns d drop row :
  candidate (new_building d drop row) = snd row
  /\ year_built (new_building d drop row) = year d
  /\ new_stories (new_building d drop row)
     = fceil (stories (attrs (proposal (sized (snd row)))))
  /\ new_parcel_id (new_building d drop row)
     = (if drop then parcel_id (snd row) else Some (fst row))
  /\ (forall l, forms d = FormList l ->
                new_form (new_building d drop row)
                = form (proposal (sized (snd row))))
  /\ (forall f, forms d = OneForm f ->
                new_form (new_building d drop row) = Some f).
Proof.
  unfold new_building. simpl. repeat split; auto.
  - intros l ->. reflexivity.
  - intros f ->. reflexivity.
Qed.

(** C7, at the failing input: with [forms = None] the forms of the table
    compete and the reduction records the winning form of each parcel,
    but the table [pick] returns has lost it: its [form] column holds the
    configured [None]. *)
Theorem pick_without_forms_overwrites_form :
  exists (st' : @state nat) (b : Building) (rest : list Building),
    example_pick (example_state (Wide scenario_D) NoForms 1000 false)
    = (st', Ok (Some (b :: rest)))
    /\ new_parcel_id b = Some 1
    /\ form (proposal (sized (candidate b))) = Some "office"%string
    /\ new_form b = None.
Proof.
  eexists _, _, _. split; [vm_compute; reflexivity|].
  repeat split.
Qed.

(** ** Sums of positive net units *)

Lemma fsum_cons (x : fnum) (l : list fnum) :
  fsum (x :: l) = if is_nan x then fsum l else fadd x (fsum l).
Proof. unfold fsum. simpl. destruct (is_nan x); reflexivity. Qed.

Lemma fpos_cases (x : fnum) :
  fpos x = true -> x = PInf \/ exists q, x = Fin q /\ (0 < q)%Q.
Proof.
  destruct x as [q| | |]; simpl; try discriminate; auto.
  unfold fpos. simpl. intros H%Qltb_lt. right. eauto.
Qed.

Lemma positive_units_cases (df : frame Z Candidate) :
  Forall (fun row => fpos (net_units (snd row)) = true) df ->
  sum_net_units df = PInf
  \/ (Forall (fun row => net_units (snd row) = Fin (units_q (snd row))
                         /\ (0 < units_q (snd row))%Q) df
      /\ sum_net_units df
         = Fin (Qsum (map (fun row => units_q (snd row)) df))).
Proof.
  unfold sum_net_units. induction 1 as [|row df Hrow _ IH].
  - right. split; [constructor | reflexivity].
  - simpl. rewrite fsum_cons. unfold units_q at 3.
    destruct (fpos_cases _ Hrow) as [->|(q & Hq & Hpos)]; simpl.
    + left. destruct IH as [->|[_ ->]]; reflexivity.
    + rewrite Hq. simpl. destruct IH as [->|[Hall ->]]; [left; reflexivity|].
      right. split; [|reflexivity].
      constructor; [|exact Hall]. unfold units_q. rewrite Hq. auto.
Qed.

Lemma NoDup_map_inj {A B} (f : A -> B) (l : list A) (x y : A) :
  NoDup (map f l) -> In x l -> In y l -> f x = f y -> x = y.
Proof.
  induction l as [|z l IH]; simpl; [intros _ []|].
  intros [Hz Hnd]%NoDup_cons [<-|Hx] [<-|Hy] Hf; auto.
  - exfalso. apply Hz. rewrite Hf. apply list_elem_of_In, in_map, Hy.
  - exfalso. apply Hz. rewrite <- Hf. apply list_elem_of_In, in_map, Hx.
Qed.

Lemma flt_Fin_not_fle (t : fnum) (a b : Q) :
  flt (Fin b) t = true -> (a <= b)%Q -> fle t (Fin a) = false.
Proof.
  destruct t as [q| | |]; simpl; try discriminate; try reflexivity.
  intros H%Qltb_lt Hab. destruct (Qle_bool q a) eqn:E; [|reflexivity].
  apply Qle_bool_iff in E. lra.
Qed.

(** ** The long-mode sampler on a pool that falls short *)

Section Exhaustion.
Context {rng : Type}.
Variable draw : list fnum -> rng -> rng * nat.

Lemma Qsum_entries_nonneg (pool : list (Z * Candidate * fnum)) :
  Forall pos_entry pool -> (0 <= Qsum (map entry_units pool))%Q.
Proof.
  induction 1 as [|e pool [_ He] _ IH]; simpl; lra.
Qed.

Lemma Qsum_entries_filter (P : Z * Candidate * fnum -> bool)
    (pool : list (Z * Candidate * fnum)) :
  Forall pos_entry pool ->
  (Qsum (map entry_units (List.filter P pool))
   <= Qsum (map entry_units pool))%Q.
Proof.
  induction 1 as [|e pool [_ He] _ IH]; simpl; [lra|].
  destruct (P e); simpl; lra.
Qed.

Lemma Qsum_entries_delete (pool : list (Z * Candidate * fnum)) (k : nat)
    (e : Z * Candidate * fnum) :
  pool !! k = Some e ->
  (Qsum (map entry_units pool)
   == entry_units e + Qsum (map entry_units (delete k pool)))%Q.
Proof.
  revert k. induction pool as [|x pool IH]; intros [|k] Hk; try discriminate.
  - injection Hk as ->. simpl. lra.
  - simpl in Hk. simpl. specialize (IH k Hk). simpl in IH. lra.
Qed.

Lemma In_delete_or {A} (l : list A) (k : nat) (x e : A) :
  l !! k = Some x -> In e l -> e = x \/ In e (delete k l).
Proof.
  revert k. induction l as [|y l IH]; intros [|k] Hk He; try discriminate.
  - injection Hk as ->. destruct He as [->|He]; auto.
  - simpl in Hk. destruct He as [->|He]; [right; left; reflexivity|].
    destruct (IH k Hk He); [left | right; right]; assumption.
Qed.

Lemma In_delete {A} (l : list A) (k : nat) (e : A) :
  In e (delete k l) -> In e l.
Proof.
  revert k. induction l as [|y l IH]; intros [|k] He; simpl in *; auto.
  destruct He as [->|He]; [left; reflexivity | right; eauto].
Qed.

Lemma draw_until_multi_exhausts (fuel : nat) :
  forall (pool : list (Z * Candidate * fnum)) (t : fnum) (a b : Q) (g : rng),
    (length pool <= fuel)%nat ->
    Forall pos_entry pool ->
    flt (Fin b) t = true ->
    (a + Qsum (map entry_units pool) <= b)%Q ->
    exists (g' : rng) (sel : list (Z * Candidate * fnum)),
      draw_until draw true fuel pool t (Fin a) g = (g', map (fun e => fst (fst e)) sel)
      /\ incl sel pool
      /\ NoDup (map (fun e => parcel_of (fst e)) sel)
      /\ forall e, In e pool ->
           In (parcel_of (fst e)) (map (fun e => parcel_of (fst e)) sel).
Proof.
  induction fuel as [|fuel IH]; intros pool t a b g Hlen Hpos Ht Hsum.
  - destruct pool; [|simpl in Hlen; lia].
    exists g, []. repeat split; [intros ? []|constructor|intros ? []].
  - simpl. destruct pool as [|e0 pool0] eqn:Hpool.
    { exists g, []. repeat split; [intros ? []|constructor|intros ? []]. }
    rewrite <- Hpool in *. replace (no_rows pool) with false by (subst; reflexivity).
    simpl. pose proof (Qsum_entries_nonneg pool Hpos) as Hnn.
    rewrite (flt_Fin_not_fle t a b Ht) by lra.
    destruct (draw _ g) as [g1 k0].
    set (k := (k0 mod length pool)%nat).
    assert (Hk : (k < length pool)%nat).
    { apply Nat.mod_upper_bound. subst pool. discriminate. }
    destruct (lookup_lt_is_Some_2 pool k Hk) as ([row w] & Hrow).
    rewrite Hrow.
    set (rest := List.filter _ (delete k pool)).
    assert (Hrow_in : In (row, w) pool).
    { apply list_elem_of_In. eapply list_elem_of_lookup_2. exact Hrow. }
    assert (Hrest_in : forall e, In e rest -> In e pool /\ parcel_of (fst e) <> parcel_of row).
    { intros e He. apply filter_In in He. destruct He as [He Hp].
      split; [eapply In_delete; exact He|].
      simpl in Hp. unfold parcel_of. destruct (bool_decide_reflect (parcel_id (snd (fst e)) = parcel_id (snd row))); [discriminate | assumption]. }
    assert (Hrow_pos : pos_entry (row, w)).
    { apply (proj1 (List.Forall_forall _ _) Hpos). exact Hrow_in. }
    destruct Hrow_pos as [Hu Hq]. unfold entry_units in Hu, Hq.
    simpl in Hu, Hq.
    rewrite Hu. simpl.
    destruct (IH rest t (a + entry_units (row, w))%Q b g1) as (g' & sel & Heq & Hincl & Hnd & Hcov).
    + assert (length rest <= length (delete k pool))%nat.
      { subst rest. apply List.filter_length_le. }
      rewrite length_delete in H by eauto. lia.
    + apply List.Forall_forall. intros e He.
      apply (proj1 (List.Forall_forall _ _) Hpos). apply Hrest_in, He.
    + exact Ht.
    + pose proof (Qsum_entries_delete pool k (row, w) Hrow) as Hd.
      assert (Hpos_d : Forall pos_entry (delete k pool)).
      { apply List.Forall_forall. intros e He.
        apply (proj1 (List.Forall_forall _ _) Hpos). eapply In_delete, He. }
      pose proof (Qsum_entries_filter
                    (fun e => negb (bool_decide (parcel_id (snd (fst e)) = parcel_id (snd row))))
                    (delete k pool) Hpos_d) as Hf.
      fold rest in Hf. lra.
    + unfold entry_units in Heq. simpl in Heq.
      rewrite Heq. exists g', ((row, w) :: sel). split; [reflexivity|].
      split; [|split].
      * intros e [<-|He]; [exact Hrow_in | apply Hrest_in, Hincl, He].
      * simpl. apply NoDup_cons. split; [|exact Hnd].
        intros Hin%list_elem_of_In. apply in_map_iff in Hin.
        destruct Hin as (e & Hpe & He). apply Hincl, Hrest_in in He.
        destruct He as [_ Hne]. apply Hne. exact Hpe.
      * intros e He. simpl.
        destruct (decide (parcel_of (fst e) = parcel_of row)) as [Heq'|Hne]; [left; symmetry; exact Heq'|].
        right. apply Hcov. subst rest. apply filter_In. split.
        -- destruct (In_delete_or pool k (row, w) e Hrow He) as [->|Hd]; [|exact Hd].
           exfalso. apply Hne. reflexivity.
        -- simpl. unfold parcel_of in Hne.
           destruct (bool_decide_reflect (parcel_id (snd (fst e)) = parcel_id (snd row))); [contradiction | reflexivity].
Qed.
End Exhaustion.

Section LongSelection.
Context {rng : Type}.
Variable wrc : @sampler rng.
Variable draw : list fnum -> rng -> rng * nat.

(** C2, amended: when the net units of the pool fall short of a positive
    scalar target and no custom selection function is given, the
    selection step prints the warning and raises nothing.  In non-long
    mode it returns the labels of the whole candidate pool.  In long
    mode, on a pool of positive net units with one probability per row,
    it returns the labels of exactly one proposal of every parcel of the
    pool; that is the whole pool when no two proposals share a parcel. *)
Theorem select_whole_pool_when_insufficient
    (df : frame Z Candidate) (p : list fnum) (st : @state rng) (t : fnum) :
  target_units (self st) = Scalar t ->
  fpos t = true ->
  flt (sum_net_units df) t = true ->
  (keep_suboptimal (self st) = false ->
   forall wrcm : sampler,
     _select_buildings wrc wrcm df p None st
     = (mkState (self st) (warning :: printed st) (gen st), Ok (index df)))
  /\ (keep_suboptimal (self st) = true ->
      length p = length df ->
      Forall (fun row => fpos (net_units (snd row)) = true) df ->
      exists (g' : rng) (sel : frame Z Candidate),
        _select_buildings wrc (spec_weighted_random_choice_multiparcel draw)
          df p None st
        = (mkState (self st) (warning :: printed st) g', Ok (index sel))
        /\ incl sel df
        /\ NoDup (map parcel_of sel)
        /\ (forall row, In row df -> In (parcel_of row) (map parcel_of sel))
        /\ (NoDup (map parcel_of df) -> index sel ≡ₚ index df)).
Proof.
  intros Ht Hpos Hlt. pose proof (fpos_not_fle_zero _ Hpos) as Hle.
  split.
  - intros Hk wrcm. unfold _select_buildings. unfold_monad. simpl.
    rewrite Ht, Hlt, Hle, Hk. reflexivity.
  - intros Hk Hlen Hunits.
    destruct (positive_units_cases df Hunits) as [Hinf|[Hfin Hsum]].
    { rewrite Hinf in Hlt. destruct t; discriminate. }
    assert (Hfst : map fst (zip df p) = df).
    { apply fst_zip. lia. }
    destruct (draw_until_multi_exhausts draw (length df) (zip df p) t 0
                (Qsum (map (fun row => units_q (snd row)) df)) (gen st))
      as (g' & sel0 & Heq & Hincl & Hnd & Hcov).
    + rewrite length_zip. lia.
    + apply List.Forall_forall. intros e He.
      apply (proj1 (List.Forall_forall _ _) Hfin (fst e)).
      rewrite <- Hfst. apply in_map, He.
    + rewrite <- Hsum. exact Hlt.
    + rewrite <- Hfst at 2. rewrite List.map_map.
      change (fun x : Z * Candidate * fnum => units_q (snd (fst x)))
        with entry_units.
      lra.
    + assert (Hsub : incl (map fst sel0) df).
      { intros row Hrow. apply in_map_iff in Hrow.
        destruct Hrow as (e & <- & He). rewrite <- Hfst.
        apply in_map, Hincl, He. }
      assert (Hnd' : NoDup (map parcel_of (map fst sel0))).
      { rewrite List.map_map. exact Hnd. }
      assert (Hcov' : forall row, In row df ->
                        In (parcel_of row) (map parcel_of (map fst sel0))).
      { intros row Hrow. rewrite <- Hfst in Hrow. apply in_map_iff in Hrow.
        destruct Hrow as (e & <- & He). rewrite List.map_map.
        apply Hcov, He. }
      exists g', (map fst sel0). split; [|split; [|split; [|split]]];
        try assumption.
      * unfold _select_buildings. unfold_monad. simpl.
        rewrite Ht, Hlt, Hle, Hk. simpl.
        unfold with_gen, spec_weighted_random_choice_multiparcel. simpl.
        rewrite Heq. unfold index. rewrite List.map_map. reflexivity.
      * intros Hdf. unfold index. apply fmap_Permutation.
        apply NoDup_Permutation.
        -- eapply NoDup_fmap_1. exact Hnd'.
        -- eapply NoDup_fmap_1. exact Hdf.
        -- intros row. rewrite !list_elem_of_In. split; [apply Hsub|].
           intros Hrow. pose proof (Hcov' row Hrow) as Hp.
           apply in_map_iff in Hp. destruct Hp as (row' & Hpe & Hin).
           rewrite <- (NoDup_map_inj parcel_of df row' row Hdf); auto.
Qed.
End LongSelection.

(** ** Where the specification says too much *)

(** C2 as stated fails in long mode: the net units of the pool (11) are
    short of the target (1000), yet the selection returns one of the two
    proposals of parcel 1, not the whole pool. *)
Lemma select_long_mode_not_whole_pool :
  let st := example_state (Long scenario_E) NoForms 1000 true in
  target_units (self st) = Scalar (Fin 1000)
  /\ keep_suboptimal (self st) = true
  /\ fpos (Fin 1000) = true
  /\ flt (sum_net_units pool_E) (Fin 1000) = true
  /\ index pool_E = [0; 1]
  /\ snd (example_select pool_E st) = Ok [0]
  /\ snd (example_select pool_E st) <> Ok (index pool_E).
Proof.
  vm_compute. repeat split; discriminate.
Qed.


(** Two densities that cancel: the sum is zero, the probabilities are the
    infinities and their sum is NaN. *)
Lemma cancelling_densities_not_normalised :
  Forall (fun row => finite_row (snd row)) cancelling_pool
  /\ default_p cancelling_pool = [NInf; PInf]
  /\ fadd NInf PInf = NaN.
Proof.
  split; [|split; reflexivity].
  repeat (constructor; [eexists _, _; repeat split; reflexivity|]).
  constructor.
Qed.

(** C4 as stated fails on a tie: both forms of parcel 2 of scenario D
    have a profit of 60 and residential is the first column group, yet
    the reduction keeps office on parcel 2.  It fails on a parcel
    without a profit under any allowed form: with only office allowed,
    parcel 3 of scenario F has no row.  And with an empty list of forms
    the reduction raises [KeyError]. *)
Lemma keep_form_tie_keeps_sorted_first :
  columns scenario_D = ["residential"; "office"]%string
  /\ profit_of scenario_D 2 "residential" = Fin 60
  /\ profit_of scenario_D 2 "office" = Fin 60
  /\ keep_form_with_max_profit scenario_D None
     = Ok [(1, mkProposal (Some "office"%string) (plain 80 2000));
           (2, mkProposal (Some "office"%string) (plain 60 4000))]
  /\ In 3 (index (wrows scenario_F))
  /\ (exists df : frame Z Proposal,
        keep_form_with_max_profit scenario_F (Some ["office"%string]) = Ok df
        /\ index df = [1; 2])
  /\ keep_form_with_max_profit scenario_D (Some []) = Raise KeyError.
Proof.
  split; [reflexivity|]. split; [vm_compute; reflexivity|].
  split; [vm_compute; reflexivity|]. split; [vm_compute; reflexivity|].
  split; [simpl; auto|]. split; [|vm_compute; reflexivity].
  eexists. split; vm_compute; reflexivity.
Qed.

(** C9 as stated fails on an empty feasibility table: [pick] returns at
    once and the value 100 of parcel 1, below the minimum of 400, is
    still in the series. *)
Lemma pick_on_empty_table_does_not_clamp :
  let st := example_state empty_table NoForms 1000 false in
  let after := ave_unit_size (self (fst (example_pick st))) in
  snd (example_pick st) = Ok None
  /\ after !! 1 = Some (Fin 100)
  /\ flt (Fin 100) (min_unit_size (self st)) = true.
Proof.
  vm_compute. repeat split.
Qed.

(** ** The theorems at work on the scenarios *)

(** Scenario D with a target of 3 units: one parcel is built and its row
    is feasible. *)
Lemma pick_rows_feasible_witness :
  exists (st' : @state nat) (new_df : list Building),
    example_pick (example_state (Wide scenario_D) NoForms 3 false)
    = (st', Ok (Some new_df))
    /\ new_df <> []
    /\ forall b, In b new_df -> feasible_row (Fin 200000) (candidate b).
Proof.
  eexists _, _. split; [vm_compute; reflexivity|]. split; [discriminate|].
  eapply (pick_rows_feasible
           (spec_weighted_random_choice counter_draw)
           (spec_weighted_random_choice_multiparcel counter_draw)
           None None (example_state (Wide scenario_D) NoForms 3 false)).
  vm_compute. reflexivity.
Defined.

(** Scenario C: the target of 1000 is out of reach of the 15 units, and
    the three parcels are selected.  In long mode one of the two
    proposals of parcel 1 of scenario E is selected, and both parcels of
    a pool with one proposal each. *)
Lemma select_whole_pool_when_insufficient_witness :
  example_select scenario_C (example_state empty_table NoForms 1000 false)
  = (mkState (example_developer empty_table NoForms 1000 false) [warning] O,
     Ok [1; 2; 3])
  /\ (exists (g' : nat) (sel : frame Z Candidate),
        example_select pool_E
          (example_state (Long scenario_E) NoForms 1000 true)
        = (mkState (example_developer (Long scenario_E) NoForms 1000 true)
             [warning] g', Ok (index sel))
        /\ incl sel pool_E
        /\ NoDup (map parcel_of sel)
        /\ (forall row, In row pool_E ->
                        In (parcel_of row) (map parcel_of sel))
        /\ (NoDup (map parcel_of pool_E) -> index sel ≡ₚ index pool_E))
  /\ (exists (g' : nat) (sel : frame Z Candidate),
        example_select pool_G
          (example_state (Long scenario_E) NoForms 1000 true)
        = (mkState (example_developer (Long scenario_E) NoForms 1000 true)
             [warning] g', Ok (index sel))
        /\ index sel ≡ₚ index pool_G).
Proof.
  split; [|split].
  - apply (select_whole_pool_when_insufficient
             (spec_weighted_random_choice counter_draw) counter_draw
             scenario_C (default_p scenario_C)
             (example_state empty_table NoForms 1000 false) (Fin 1000));
      reflexivity.
  - apply (select_whole_pool_when_insufficient
             (spec_weighted_random_choice counter_draw) counter_draw
             pool_E (default_p pool_E)
             (example_state (Long scenario_E) NoForms 1000 true) (Fin 1000));
      try reflexivity.
    repeat constructor.
  - destruct (select_whole_pool_when_insufficient
                (spec_weighted_random_choice counter_draw) counter_draw
                pool_G (default_p pool_G)
                (example_state (Long scenario_E) NoForms 1000 true)
                (Fin 1000) eq_refl eq_refl eq_refl) as [_ Hlong].
    destruct (Hlong eq_refl eq_refl) as (g' & sel & Heq & _ & _ & _ & Hall).
    + repeat constructor.
    + exists g', sel. split; [exact Heq|]. apply Hall.
      apply (bool_decide_unpack _). vm_compute. exact I.
Defined.


(** Scenario B: a target of 0 selects nothing. *)
Lemma select_nothing_for_nonpositive_target_witness :
  exists st' : @state nat,
    example_select scenario_C (example_state empty_table NoForms 0 false)
    = (st', Ok [])
    /\ self st' = example_developer empty_table NoForms 0 false.
Proof.
  apply (select_nothing_for_nonpositive_target
           (spec_weighted_random_choice counter_draw)
           (spec_weighted_random_choice_multiparcel counter_draw)
           scenario_C (default_p scenario_C)
           (example_state empty_table NoForms 0 false) (Fin 0));
    reflexivity.
Defined.

(** Scenario D, twice: the first call builds parcel 1 and drops it. *)
Lemma pick_never_reselects_witness :
  exists (st1 : @state nat) (built1 : list Building),
    example_pick (example_state (Wide scenario_D) NoForms 3 false)
    = (st1, Ok (Some built1))
    /\ built1 <> []
    /\ (forall b, In b built1 ->
          exists i, new_parcel_id b = Some i
                    /\ ~ In i (table_index (feasibility (self st1))))
    /\ (forall ptp2 csf2 (st2 : @state nat) built2,
          pick (spec_weighted_random_choice counter_draw)
            (spec_weighted_random_choice_multiparcel counter_draw)
            ptp2 csf2 st1 = (st2, Ok (Some built2)) ->
          forall b1 b2, In b1 built1 -> In b2 built2 ->
            new_parcel_id b1 <> new_parcel_id b2).
Proof.
  eexists _, _. split; [vm_compute; reflexivity|]. split; [discriminate|].
  eapply (pick_never_reselects
           (spec_weighted_random_choice counter_draw)
           (spec_weighted_random_choice_multiparcel counter_draw)
           None None (example_state (Wide scenario_D) NoForms 3 false)).
  - reflexivity.
  - reflexivity.
  - vm_compute. reflexivity.
Defined.

(** An empty feasibility table: nothing to build. *)
Lemma pick_nothing_to_build_witness :
  exists st' : @state nat,
    example_pick (example_state empty_table NoForms 1000 false)
    = (st', Ok None)
    /\ printed st' = [empty_warn]
    /\ Ok (A := option (list Building)) None <> Ok (Some []).
Proof.
  apply (pick_nothing_to_build
           (spec_weighted_random_choice counter_draw)
           (spec_weighted_random_choice_multiparcel counter_draw)
           None None (example_state empty_table NoForms 1000 false)).
  left. reflexivity.
Defined.

(** Scenario D: the unit size of parcel 1 goes from 100 to the minimum. *)
Lemma pick_clamps_ave_unit_size_witness :
  let st := example_state (Wide scenario_D) NoForms 3 false in
  let m := min_unit_size (self st) in
  let after := ave_unit_size (self (fst (example_pick st))) in
  (forall i : Z,
      after !! i
      = (fun v => if flt v m then m else v) <$> ave_unit_size (self st) !! i)
  /\ (forall (i : Z) (v : fnum), after !! i = Some v -> flt v m = false).
Proof.
  eapply (pick_clamps_ave_unit_size
            (spec_weighted_random_choice counter_draw)
            (spec_weighted_random_choice_multiparcel counter_draw)
            None None (example_state (Wide scenario_D) NoForms 3 false)).
  - reflexivity.
  - vm_compute. reflexivity.
  - discriminate.
Defined.

(** Scenario E: the long table is still whole after the call. *)
Lemma pick_long_mode_keeps_feasibility_witness :
  feasibility
    (self (fst (example_pick (example_state (Long scenario_E) NoForms 1000 true))))
  = Long scenario_E.
Proof.
  apply (pick_long_mode_keeps_feasibility
           (spec_weighted_random_choice counter_draw)
           (spec_weighted_random_choice_multiparcel counter_draw)
           None None (example_state (Long scenario_E) NoForms 1000 true)).
  reflexivity.
Defined.

(** * Further properties *)

(** ** Configuration round trip *)

Section YamlFacts.
Context {yaml : Type}.
Variable yaml_to_dict : yaml -> result (gmap string py_value).
Variable convert_to_yaml : gmap string py_value -> yaml.

(** X1: when reading back what [convert_to_yaml] wrote gives the
    dictionary again, [from_yaml] on the text of [to_yaml], with the
    tables and the year of the instance, rebuilds the instance but for
    [num_units_to_build], which [from_yaml] never passes on and which
    comes back [None]: the round trip is exact on the instances whose
    [num_units_to_build] is [None], and only on those. *)
Theorem from_yaml_to_yaml (d : Developer) (keep : bool) :
  (forall cfg, yaml_to_dict (convert_to_yaml cfg) = Ok cfg) ->
  let back :=
    from_yaml yaml_to_dict (feasibility d) (forms d) (target_units d)
      (parcel_size d) (ave_unit_size d) (current_units d) (year d)
      (to_yaml convert_to_yaml d) keep in
  back = Ok (set_num_units_to_build None d)
  /\ (back = Ok d <-> num_units_to_build d = None).
Proof.
  intros Hrt back.
  assert (Hback : back = Ok (set_num_units_to_build None d)).
  { subst back. unfold from_yaml, to_yaml. rewrite Hrt. simpl.
    destruct d. reflexivity. }
  split; [exact Hback|]. rewrite Hback. split.
  - intros [= Heq]. rewrite <- Heq. reflexivity.
  - intros Hn. f_equal. destruct d. simpl in *. subst. reflexivity.
Qed.

(** X2: once the text is read, [from_yaml] raises [KeyError] exactly when
    one of the five keys it reads with [cfg[k]] is missing; it never
    raises for a missing [keep_suboptimal]. *)
Theorem from_yaml_key_error feas fs tgt ps aus cu yr (y : yaml) keep cfg :
  yaml_to_dict y = Ok cfg ->
  (from_yaml yaml_to_dict feas fs tgt ps aus cu yr y keep = Raise KeyError
   <-> exists k, In k required_keys /\ cfg !! k = None)
  /\ ((forall k, In k required_keys -> cfg !! k <> None) ->
      exists d, from_yaml yaml_to_dict feas fs tgt ps aus cu yr y keep = Ok d).
Proof.
  intros Hcfg. unfold from_yaml, getitem. rewrite Hcfg. simpl.
  destruct (cfg !! "bldg_sqft_per_job"%string) eqn:E1; simpl.
  2:{ split; [split; [|reflexivity]|].
      - intros _. eexists. split; [|exact E1]. simpl. auto.
      - intros H. exfalso. apply (H _ (or_introl eq_refl)), E1. }
  destruct (cfg !! "min_unit_size"%string) eqn:E2; simpl.
  2:{ split; [split; [|reflexivity]|].
      - intros _. eexists. split; [|exact E2]. simpl. auto.
      - intros H. exfalso. apply (H "min_unit_size"%string); simpl; auto. }
  destruct (cfg !! "max_parcel_size"%string) eqn:E3; simpl.
  2:{ split; [split; [|reflexivity]|].
      - intros _. eexists. split; [|exact E3]. simpl. auto.
      - intros H. exfalso. apply (H "max_parcel_size"%string); simpl; auto. }
  destruct (cfg !! "drop_after_build"%string) eqn:E4; simpl.
  2:{ split; [split; [|reflexivity]|].
      - intros _. eexists. split; [|exact E4]. simpl. auto 6.
      - intros H. exfalso. apply (H "drop_after_build"%string); simpl; auto 6. }
  destruct (cfg !! "residential"%string) eqn:E5; simpl.
  2:{ split; [split; [|reflexivity]|].
      - intros _. eexists. split; [|exact E5]. simpl. auto 7.
      - intros H. exfalso. apply (H "residential"%string); simpl; auto 7. }
  split; [split; [discriminate|]|eauto].
  intros (k & Hk & Hnone). simpl in Hk.
  destruct Hk as [<-|[<-|[<-|[<-|[<-|[]]]]]]; congruence.
Qed.

(** X3: the [keep_suboptimal] of the instance [from_yaml] builds is the
    one of the YAML when the key is there, and the argument otherwise. *)
Theorem from_yaml_keep_suboptimal feas fs tgt ps aus cu yr (y : yaml) keep
    cfg d :
  yaml_to_dict y = Ok cfg ->
  from_yaml yaml_to_dict feas fs tgt ps aus cu yr y keep = Ok d ->
  (forall v, cfg !! "keep_suboptimal"%string = Some v ->
             keep_suboptimal d = truthy v)
  /\ (cfg !! "keep_suboptimal"%string = None -> keep_suboptimal d = keep)
  /\ feasibility d = feas /\ forms d = fs /\ target_units d = tgt
  /\ parcel_size d = ps /\ ave_unit_size d = aus /\ current_units d = cu
  /\ year d = yr.
Proof.
  intros Hcfg. unfold from_yaml, getitem. rewrite Hcfg. simpl.
  repeat (break_match; simpl; try discriminate).
  - intros [= <-]. simpl. repeat split; congruence.
  - intros [= <-]. simpl. repeat split; congruence.
Qed.
End YamlFacts.

(** ** Where the rows of the new buildings come from *)

(** The columns of a candidate, read off the table of buildings and the
    three series. *)
Lemma candidates_columns d df0 row :
  In row (candidates d df0) ->
  let s := sized (snd row) in
  let i := fst row in
  In (i, proposal s) df0
  /\ col_ave_unit_size s
     = reindex (clamp (min_unit_size d) (ave_unit_size d)) i
  /\ col_parcel_size s = reindex (parcel_size d) i
  /\ col_current_units s = reindex (current_units d) i
  /\ residential_units s
     = fround (fdiv (residential_sqft (attrs (proposal s)))
                 (col_ave_unit_size s))
  /\ job_spaces s
     = fround (fdiv (non_residential_sqft (attrs (proposal s)))
                 (bldg_sqft_per_job d))
  /\ net_units (snd row)
     = fsub (if residential d then residential_units s else job_spaces s)
         (col_current_units s).
Proof.
  unfold candidates, _calculate_net_units, _remove_infeasible_buildings.
  destruct df0 as [|r0 df0]; [intros []|].
  set (rows := r0 :: df0). clearbody rows. simpl.
  match goal with
  | |- In row match ?l with _ => _ end -> _ => destruct l eqn:El
  end; [intros []|].
  rewrite <- El. clear El. intros Hin.
  apply filter_In in Hin. destruct Hin as [Hin Hnet].
  apply in_map_iff in Hin. destruct Hin as ([i s] & <- & Hin).
  apply in_map_iff in Hin.
  destruct Hin as ([i' [pr [[aus ps] cu]]] & Heq & Hin).
  injection Heq as -> <-.
  apply filter_In in Hin. destruct Hin as [Hin Hps].
  apply in_map_iff in Hin. destruct Hin as ([i' pr'] & Heq & Hin).
  injection Heq as -> -> <- <- <-.
  apply filter_In in Hin. destruct Hin as [Hin Hfar].
  simpl in *. repeat split; auto.
Qed.

Lemma has_parcel_id_none (df : frame Z Candidate) :
  (forall row, In row df -> parcel_id (snd row) = None) ->
  has_parcel_id df = false.
Proof.
  destruct df as [|row df]; [reflexivity|]. intros H. simpl.
  rewrite (H row) by (left; reflexivity). reflexivity.
Qed.

Lemma has_parcel_id_some (df : frame Z Candidate) row0 :
  In row0 df ->
  (forall row, In row df -> parcel_id (snd row) <> None) ->
  has_parcel_id df = true.
Proof.
  destruct df as [|row df]; [intros []|]. intros _ H. simpl.
  specialize (H row (or_introl eq_refl)).
  destruct (parcel_id (snd row)); [reflexivity | contradiction].
Qed.

Section Provenance.
Context {rng : Type}.
Variables wrc wrcm : @sampler rng.

(** A row [pick] returns is a candidate: same columns, and the parcel of
    the candidate in its [parcel_id] column, in both modes. *)
Lemma pick_row_inv ptp csf (st st' : @state rng) new_df :
  pick wrc wrcm ptp csf st = (st', Ok (Some new_df)) ->
  exists df0,
    table_of_buildings (self st) = Ok df0
    /\ forall b, In b new_df ->
         exists row0,
           In row0 (candidates (self st) df0)
           /\ sized (candidate b) = sized (snd row0)
           /\ net_units (candidate b) = net_units (snd row0)
           /\ new_parcel_id b = Some (fst row0).
Proof.
  rewrite pick_eq. intros Hpick.
  destruct (table_empty _); [discriminate|].
  destruct (table_of_buildings (self st)) as [df0|e]; [|discriminate].
  exists df0. split; [reflexivity|]. intros b Hb.
  cbv zeta in Hpick.
  destruct (no_rows _); [discriminate|].
  destruct (int _); [|discriminate].
  apply select_drop_prepare_inv in Hpick.
  destruct Hpick as (idx & rows & st1 & _ & Hloc & -> & _).
  apply in_map_iff in Hb. destruct Hb as (row & <- & Hrow).
  apply (loc_In _ _ _ Hloc) in Hrow. destruct Hrow as [Hrow _].
  pose proof Hrow as Hrow'.
  apply selection_pool_In in Hrow'.
  destruct Hrow' as (row0 & Hin & Hs & Hn & Hp).
  exists row0. split; [exact Hin|]. split; [exact Hs|]. split; [exact Hn|].
  unfold new_building. simpl.
  destruct (keep_suboptimal
              (fst (_remove_infeasible_buildings (self st) df0))).
  - erewrite has_parcel_id_some; [exact Hp | exact Hrow |].
    intros r Hr. apply (selection_pool_In true) in Hr.
    destruct Hr as (r0 & _ & _ & _ & ->). discriminate.
  - destruct Hp as [Hi Hp]. rewrite has_parcel_id_none; [congruence|].
    intros r Hr. apply (selection_pool_In false) in Hr.
    destruct Hr as (r0 & Hr0 & _ & _ & _ & ->).
    apply candidates_feasible in Hr0. tauto.
Qed.

(** The columns [_prepare_new_buildings] writes, in terms of the
    instance before the call. *)
Lemma pick_row_written ptp csf (st st' : @state rng) new_df :
  pick wrc wrcm ptp csf st = (st', Ok (Some new_df)) ->
  forall b, In b new_df ->
    year_built b = year (self st)
    /\ new_stories b = fceil (stories (attrs (proposal (sized (candidate b)))))
    /\ new_form b
       = (if is_form_list (forms (self st))
          then form (proposal (sized (candidate b)))
          else match forms (self st) with
               | OneForm f => Some f
               | _ => None
               end).
Proof.
  intros Hpick b Hb.
  pose proof (pick_config wrc wrcm ptp csf st) as Hc.
  rewrite Hpick in Hc. simpl in Hc.
  destruct Hc as (Hforms & _ & _ & _ & Hyear & _).
  rewrite pick_eq in Hpick.
  destruct (table_empty _); [discriminate|].
  destruct (table_of_buildings (self st)) as [df0|e]; [|discriminate].
  cbv zeta in Hpick.
  destruct (no_rows _); [discriminate|].
  destruct (int _); [|discriminate].
  apply select_drop_prepare_inv in Hpick.
  destruct Hpick as (idx & rows & st1 & _ & _ & -> & _).
  apply in_map_iff in Hb. destruct Hb as (row & <- & _).
  unfold new_building. simpl. rewrite Hforms, Hyear. auto.
Qed.

(** X4: every building [pick] returns comes from a row of the table of
    potential buildings (the reduced or single-form table in non-long
    mode, the long feasibility table in long mode): its [parcel_id] is
    the parcel of that row, its profit, floor-area ratio and floor areas
    are those of the row, its [stories] are the row's rounded up, and its
    [form] is the row's when [forms] is a list and the configured value
    otherwise. *)
Theorem pick_rows_from_table
    (ptp : option (frame Z Candidate -> list fnum))
    (csf : option selection_func) (st st' : @state rng)
    (new_df : list Building) :
  pick wrc wrcm ptp csf st = (st', Ok (Some new_df)) ->
  exists df0 : frame Z Proposal,
    table_of_buildings (self st) = Ok df0
    /\ forall b, In b new_df ->
         exists (i : Z) (pr : Proposal),
           In (i, pr) df0
           /\ new_parcel_id b = Some i
           /\ kept_attrs (attrs (proposal (sized (candidate b))))
              = kept_attrs (attrs pr)
           /\ new_stories b = fceil (stories (attrs pr))
           /\ new_form b = written_form (forms (self st)) pr.
Proof.
  intros Hpick.
  pose proof (pick_row_written _ _ _ _ _ Hpick) as Hwritten.
  apply pick_row_inv in Hpick.
  destruct Hpick as (df0 & Hdf0 & Hrows).
  exists df0. split; [exact Hdf0|]. intros b Hb.
  destruct (Hrows b Hb) as (row0 & Hin & Hs & _ & Hp).
  destruct (Hwritten b Hb) as (_ & Hst & Hform).
  exists (fst row0), (proposal (sized (candidate b))).
  split; [rewrite Hs; apply (candidates_columns _ _ _ Hin)|].
  split; [exact Hp|]. split; [reflexivity|]. split; [exact Hst|].
  exact Hform.
Qed.

(** X5: the parcel of every building [pick] returns has an entry in the
    [parcel_size] series and one in the [current_units] series, and the
    row holds them: a proposal on a parcel that one of the two series
    lacks is dropped without an error. *)
Theorem pick_rows_have_series_entries
    (ptp : option (frame Z Candidate -> list fnum))
    (csf : option selection_func) (st st' : @state rng)
    (new_df : list Building) :
  pick wrc wrcm ptp csf st = (st', Ok (Some new_df)) ->
  forall b, In b new_df ->
    exists i : Z,
      new_parcel_id b = Some i
      /\ parcel_size (self st) !! i
         = Some (col_parcel_size (sized (candidate b)))
      /\ current_units (self st) !! i
         = Some (col_current_units (sized (candidate b))).
Proof.
  intros Hpick b Hb. apply pick_row_inv in Hpick.
  destruct Hpick as (df0 & Hdf0 & Hrows).
  destruct (Hrows b Hb) as (row0 & Hin & Hs & Hn & Hp).
  exists (fst row0). split; [exact Hp|]. rewrite Hs.
  destruct (candidates_feasible _ _ _ Hin) as [(Hnet & _ & Hps) _].
  destruct (candidates_columns _ _ _ Hin)
    as (_ & _ & Hcps & Hccu & _ & _ & Hcn).
  cbv zeta in *. split.
  - rewrite Hcps in *. unfold reindex in *.
    destruct (parcel_size (self st) !! fst row0); [reflexivity|discriminate].
  - rewrite Hcn, Hccu in Hnet. rewrite Hccu. unfold reindex in *.
    destruct (current_units (self st) !! fst row0); [reflexivity|].
    exfalso. simpl in Hnet.
    destruct (if residential (self st) then _ else _); discriminate.
Qed.

(** X6: no building [pick] returns has an [ave_unit_size] below
    [min_unit_size]: the column is read from the series after the
    clamp. *)
Theorem pick_rows_unit_size_not_below_min
    (ptp : option (frame Z Candidate -> list fnum))
    (csf : option selection_func) (st st' : @state rng)
    (new_df : list Building) :
  pick wrc wrcm ptp csf st = (st', Ok (Some new_df)) ->
  forall b, In b new_df ->
    flt (col_ave_unit_size (sized (candidate b))) (min_unit_size (self st))
    = false.
Proof.
  intros Hpick b Hb. apply pick_row_inv in Hpick.
  destruct Hpick as (df0 & Hdf0 & Hrows).
  destruct (Hrows b Hb) as (row0 & Hin & Hs & _ & _).
  rewrite Hs.
  destruct (candidates_columns _ _ _ Hin) as (_ & Haus & _).
  cbv zeta in Haus. rewrite Haus. unfold reindex, clamp.
  rewrite lookup_fmap.
  destruct (ave_unit_size (self st) !! fst row0) as [w|]; simpl;
    [|reflexivity].
  destruct (flt w (min_unit_size (self st))) eqn:Hw; [|exact Hw].
  destruct (min_unit_size (self st)); try reflexivity.
  unfold flt, Qltb.
  rewrite (proj2 (Qle_bool_iff q q)) by apply Qle_refl. reflexivity.
Qed.
End Provenance.

(** ** What a call leaves of the instance *)

Lemma list_filter_sublist {A} (P : A -> bool) (l : list A) :
  sublist (List.filter P l) l.
Proof.
  induction l as [|a l IH]; simpl; [constructor|].
  destruct (P a); [apply sublist_skip | apply sublist_cons]; exact IH.
Qed.

Lemma list_filter_all {A} (P : A -> bool) (l : list A) :
  (forall a, In a l -> P a = true) -> List.filter P l = l.
Proof.
  induction l as [|a l IH]; simpl; [reflexivity|]. intros H.
  rewrite (H a) by (left; reflexivity). f_equal. apply IH.
  intros b Hb. apply H. right. exact Hb.
Qed.

Lemma sub_table_refl t : sub_table t t.
Proof. destruct t; simpl; auto. Qed.

Lemma drop_rows_sub_table t idx t' :
  drop_rows t idx = Ok t' -> sub_table t' t.
Proof.
  destruct t as [f|l]; simpl; unfold drop_labels;
    destruct (forallb _ idx); simpl; try discriminate;
    intros [= <-]; simpl; auto using list_filter_sublist.
Qed.

Lemma drop_rows_nil t : drop_rows t [] = Ok t.
Proof.
  destruct t as [[cols rows]|l]; simpl; unfold drop_labels; simpl;
    rewrite list_filter_all; auto;
    intros row _; apply negb_true_iff, bool_decide_eq_false;
    apply not_elem_of_nil.
Qed.

Lemma set_feasibility_same d : set_feasibility (feasibility d) d = d.
Proof. destruct d. reflexivity. Qed.

Section Leftovers.
Context {rng : Type}.
Variables wrc wrcm : @sampler rng.

Lemma drop_built_buildings_sub_table idx (st : @state rng) :
  sub_table (feasibility (self (fst (_drop_built_buildings idx st))))
    (feasibility (self st)).
Proof.
  unfold _drop_built_buildings. unfold_monad. simpl.
  destruct (drop_after_build (self st)); [|apply sub_table_refl].
  destruct (drop_rows (feasibility (self st)) idx) as [t|e] eqn:Et; simpl;
    [|apply sub_table_refl].
  eapply drop_rows_sub_table, Et.
Qed.

Lemma drop_built_buildings_off idx (st : @state rng) :
  drop_after_build (self st) = false ->
  _drop_built_buildings idx st = (st, Ok tt).
Proof.
  intros Hd. unfold _drop_built_buildings. unfold_monad. simpl.
  rewrite Hd. reflexivity.
Qed.

(** The table after the last three steps, whatever their outcome: the
    table before, or what [_drop_built_buildings] left of it. *)
Lemma select_drop_prepare_feasibility d df p csf (st : @state rng) :
  let t' := feasibility
              (self (fst (select_drop_prepare wrc wrcm d df p csf st))) in
  sub_table t' (feasibility (self st))
  /\ (drop_after_build (self st) = false -> t' = feasibility (self st)).
Proof.
  unfold select_drop_prepare. unfold_monad.
  pose proof (select_buildings_self wrc wrcm df p csf st) as Hs.
  destruct (_select_buildings wrc wrcm df p csf st) as [st1 [idx|e]];
    simpl in *; [|rewrite Hs; split; [apply sub_table_refl | reflexivity]].
  rewrite <- Hs.
  destruct (negb (keep_suboptimal d)); unfold_monad; simpl.
  - pose proof (drop_built_buildings_sub_table idx st1) as Hsub.
    pose proof (drop_built_buildings_off idx st1) as Hoff.
    destruct (_drop_built_buildings idx st1) as [st2 [[]|e]] eqn:Ed;
      simpl in *.
    + pose proof (prepare_new_buildings_state df idx st2) as Hq.
      destruct (_prepare_new_buildings df idx st2) as [st5 [a|e]];
        simpl in *; subst st5;
        (split; [exact Hsub|]);
        intros Hd; specialize (Hoff Hd); congruence.
    + split; [exact Hsub|].
      intros Hd. specialize (Hoff Hd). congruence.
  - pose proof (prepare_new_buildings_state df idx st1) as Hq.
    destruct (_prepare_new_buildings df idx st1) as [st5 [a|e]];
      simpl in *; subst st5;
      (split; [apply sub_table_refl | reflexivity]).
Qed.

(** X7: whatever the outcome of a call to [pick], an exception
    included, the feasibility table it leaves has the columns of the
    table before and a subsequence of its rows: rows are dropped, never
    added, altered or reordered. *)
Theorem pick_feasibility_shrinks
    (ptp : option (frame Z Candidate -> list fnum))
    (csf : option selection_func) (st : @state rng) :
  sub_table (feasibility (self (fst (pick wrc wrcm ptp csf st))))
    (feasibility (self st)).
Proof.
  rewrite pick_eq.
  destruct (table_empty _); [apply sub_table_refl|].
  destruct (table_of_buildings (self st)) as [df0|e]; [|apply sub_table_refl].
  pose proof (remove_infeasible_feasibility (self st) df0) as Hf.
  cbv zeta.
  destruct (no_rows _); [simpl; rewrite Hf; apply sub_table_refl|].
  destruct (int _); [|simpl; rewrite Hf; apply sub_table_refl].
  match goal with
  | |- context [select_drop_prepare _ _ ?d ?df ?p ?c ?s] =>
      destruct (select_drop_prepare_feasibility d df p c s) as [Hsub _]
  end.
  simpl in Hsub. rewrite Hf in Hsub. exact Hsub.
Qed.

(** X8: with [drop_after_build] off, a call to [pick] leaves
    [self.feasibility] as it was, in either mode and whatever the
    outcome. *)
Theorem pick_without_drop_keeps_feasibility
    (ptp : option (frame Z Candidate -> list fnum))
    (csf : option selection_func) (st : @state rng) :
  drop_after_build (self st) = false ->
  feasibility (self (fst (pick wrc wrcm ptp csf st)))
  = feasibility (self st).
Proof.
  intros Hd. rewrite pick_eq.
  destruct (table_empty _); [reflexivity|].
  destruct (table_of_buildings (self st)) as [df0|e]; [|reflexivity].
  pose proof (remove_infeasible_feasibility (self st) df0) as Hf.
  pose proof (remove_infeasible_config (self st) df0) as Hc.
  cbv zeta.
  destruct (no_rows _); [exact Hf|].
  destruct (int _); [|exact Hf].
  match goal with
  | |- context [select_drop_prepare _ _ ?d ?df ?p ?c ?s] =>
      destruct (select_drop_prepare_feasibility d df p c s) as [_ Heq]
  end.
  simpl in Heq. rewrite Heq; [exact Hf|].
  destruct Hc as (_&_&_&_&_&_&_&_&->&_). exact Hd.
Qed.

(** X9: a call to [pick] assigns no attribute of the instance but
    [feasibility] and the shared [ave_unit_size]: the forms, the target,
    the other two series, the year and the six configuration values are
    after the call what they were before, whatever the outcome. *)
Theorem pick_keeps_configuration
    (ptp : option (frame Z Candidate -> list fnum))
    (csf : option selection_func) (st : @state rng) :
  same_config (self st) (self (fst (pick wrc wrcm ptp csf st))).
Proof. apply pick_config. Qed.

Lemma clamp_stable m (s : series) :
  map_Forall (fun _ v => flt v m = false) s -> clamp m s = s.
Proof.
  intros Hall. apply map_eq. intros i. unfold clamp. rewrite lookup_fmap.
  destruct (s !! i) as [v|] eqn:Ei; simpl; [|reflexivity].
  rewrite (Hall i v Ei). reflexivity.
Qed.

Lemma pick_ave_unit_size_cases ptp csf (st : @state rng) :
  let after := ave_unit_size (self (fst (pick wrc wrcm ptp csf st))) in
  after = ave_unit_size (self st)
  \/ after = clamp (min_unit_size (self st)) (ave_unit_size (self st)).
Proof.
  rewrite pick_eq.
  destruct (table_empty _); [left; reflexivity|].
  destruct (table_of_buildings (self st)) as [df0|e]; [|left; reflexivity].
  assert (Ha : ave_unit_size
                 (fst (_remove_infeasible_buildings (self st) df0))
               = ave_unit_size (self st)
               \/ ave_unit_size
                    (fst (_remove_infeasible_buildings (self st) df0))
                  = clamp (min_unit_size (self st))
                      (ave_unit_size (self st)))
    by (destruct df0; [left | right]; reflexivity).
  cbv zeta.
  destruct (no_rows _); [exact Ha|].
  destruct (int _); [|exact Ha].
  rewrite select_drop_prepare_ave_unit_size. exact Ha.
Qed.

(** X10: a series in which no value is below [min_unit_size] comes out
    of a call to [pick] unchanged.  A series that a call has clamped is
    such a series, so later calls leave it alone. *)
Theorem pick_keeps_clamped_series
    (ptp : option (frame Z Candidate -> list fnum))
    (csf : option selection_func) (st : @state rng) :
  map_Forall (fun _ v => flt v (min_unit_size (self st)) = false)
    (ave_unit_size (self st)) ->
  ave_unit_size (self (fst (pick wrc wrcm ptp csf st)))
  = ave_unit_size (self st).
Proof.
  intros Hall.
  destruct (pick_ave_unit_size_cases ptp csf st) as [H|H]; [exact H|].
  rewrite H. apply clamp_stable, Hall.
Qed.
End Leftovers.

(** ** The branches of the selection, seen from [pick] *)

Section Branches.
Context {rng : Type}.
Variables wrc wrcm : @sampler rng.

Lemma remove_infeasible_target d df :
  target_units (fst (_remove_infeasible_buildings d df)) = target_units d.
Proof. destruct df; reflexivity. Qed.

Lemma select_drop_prepare_nonpositive d df p (st : @state rng) t :
  target_units (self st) = Scalar t ->
  fle t (Fin 0) = true ->
  exists st',
    select_drop_prepare wrc wrcm d df p None st = (st', Ok (Some []))
    /\ self st' = self st /\ gen st' = gen st.
Proof.
  intros Ht Hle. unfold select_drop_prepare, _select_buildings.
  unfold_monad. simpl. rewrite Ht, Hle.
  destruct (flt (sum_net_units df) t); simpl;
    (destruct (negb (keep_suboptimal d)); simpl;
     [unfold _drop_built_buildings; unfold_monad; simpl;
      destruct (drop_after_build (self st)); simpl;
      rewrite ?drop_rows_nil; simpl|]);
    unfold _prepare_new_buildings; unfold_monad; simpl;
    eexists; (split; [reflexivity|]); simpl;
    rewrite ?set_feasibility_same; auto.
Qed.

Lemma select_drop_prepare_sub_targets d df p (st : @state rng) ts :
  target_units (self st) = SubTargets ts ->
  exists st',
    select_drop_prepare wrc wrcm d df p None st = (st', Raise ValueError)
    /\ self st' = self st /\ gen st' = gen st.
Proof.
  intros Ht. unfold select_drop_prepare, _select_buildings.
  unfold_monad. simpl. rewrite Ht.
  destruct (flt (sum_net_units df) (fsum ts)); simpl;
    eexists; (split; [reflexivity|]); auto.
Qed.

(** X11: with a scalar target that is at most 0 and no custom selection
    function, a call that finds candidates returns a table with no row,
    which is not the [None] of a call that finds none; it draws nothing
    from the generator and leaves [self.feasibility] as it was. *)
Theorem pick_builds_nothing_for_nonpositive_target
    (ptp : option (frame Z Candidate -> list fnum)) (st : @state rng)
    (df0 : frame Z Proposal) (t : fnum) (n : Z) :
  table_empty (feasibility (self st)) = false ->
  table_of_buildings (self st) = Ok df0 ->
  candidates (self st) df0 <> [] ->
  int (sum_net_units (candidates (self st) df0)) = Ok n ->
  target_units (self st) = Scalar t ->
  fle t (Fin 0) = true ->
  exists st',
    pick wrc wrcm ptp None st = (st', Ok (Some []))
    /\ feasibility (self st') = feasibility (self st)
    /\ gen st' = gen st.
Proof.
  intros He Hdf Hne Hint Ht Hle. rewrite pick_eq, He, Hdf. cbv zeta.
  destruct (candidates (self st) df0) as [|row cand] eqn:Ec;
    [contradiction|].
  rewrite <- Ec in *. replace (no_rows (candidates (self st) df0)) with false
    by (rewrite Ec; reflexivity).
  rewrite Hint.
  match goal with
  | |- context [select_drop_prepare _ _ ?d ?df ?p None ?s] =>
      destruct (select_drop_prepare_nonpositive d df p s t)
        as (st' & Hsdp & Hself & Hgen)
  end; [simpl; rewrite remove_infeasible_target; exact Ht | exact Hle |].
  exists st'. split; [exact Hsdp|]. rewrite Hself, Hgen. simpl.
  split; [apply remove_infeasible_feasibility | reflexivity].
Qed.

(** X12: when the net units of the candidates sum to infinity (a unit
    size of zero divides a positive floor area), [pick] raises
    [OverflowError] where it formats the sum: nothing is printed,
    selected or dropped. *)
Theorem pick_overflow_on_infinite_units
    (ptp : option (frame Z Candidate -> list fnum))
    (csf : option selection_func) (st : @state rng)
    (df0 : frame Z Proposal) :
  table_empty (feasibility (self st)) = false ->
  table_of_buildings (self st) = Ok df0 ->
  sum_net_units (candidates (self st) df0) = PInf ->
  exists st',
    pick wrc wrcm ptp csf st = (st', Raise OverflowError)
    /\ printed st' = printed st
    /\ gen st' = gen st
    /\ feasibility (self st') = feasibility (self st).
Proof.
  intros He Hdf Hsum. rewrite pick_eq, He, Hdf. cbv zeta.
  destruct (candidates (self st) df0) as [|row cand] eqn:Ec;
    [discriminate|].
  rewrite <- Ec in *. replace (no_rows (candidates (self st) df0)) with false
    by (rewrite Ec; reflexivity).
  rewrite Hsum. simpl. eexists. split; [reflexivity|]. simpl.
  split; [reflexivity|]. split; [reflexivity|].
  apply remove_infeasible_feasibility.
Qed.

(** X13: with a table of sub-targets and no custom selection function, a
    call that finds candidates raises [ValueError] at the test
    [self.target_units <= 0]: nothing is selected or dropped. *)
Theorem pick_sub_targets_need_custom_selection
    (ptp : option (frame Z Candidate -> list fnum)) (st : @state rng)
    (df0 : frame Z Proposal) (ts : list fnum) (n : Z) :
  table_empty (feasibility (self st)) = false ->
  table_of_buildings (self st) = Ok df0 ->
  candidates (self st) df0 <> [] ->
  int (sum_net_units (candidates (self st) df0)) = Ok n ->
  target_units (self st) = SubTargets ts ->
  exists st',
    pick wrc wrcm ptp None st = (st', Raise ValueError)
    /\ feasibility (self st') = feasibility (self st)
    /\ gen st' = gen st.
Proof.
  intros He Hdf Hne Hint Ht. rewrite pick_eq, He, Hdf. cbv zeta.
  destruct (candidates (self st) df0) as [|row cand] eqn:Ec;
    [contradiction|].
  rewrite <- Ec in *. replace (no_rows (candidates (self st) df0)) with false
    by (rewrite Ec; reflexivity).
  rewrite Hint.
  match goal with
  | |- context [select_drop_prepare _ _ ?d ?df ?p None ?s] =>
      destruct (select_drop_prepare_sub_targets d df p s ts)
        as (st' & Hsdp & Hself & Hgen)
  end; [simpl; rewrite remove_infeasible_target; exact Ht |].
  exists st'. split; [exact Hsdp|]. rewrite Hself, Hgen. simpl.
  split; [apply remove_infeasible_feasibility | reflexivity].
Qed.
End Branches.

(** ** Building the whole pool *)

Lemma index_map_fst {L A B} (g : L * A -> L * B) (l : frame L A) :
  (forall x, fst (g x) = fst x) -> index (map g l) = index l.
Proof.
  intros Hg. unfold index. rewrite List.map_map. apply map_ext. exact Hg.
Qed.

Lemma loc_index_NoDup {A} (df : frame Z A) :
  NoDup (index df) -> loc df (index df) = Ok df.
Proof.
  intros Hnd.
  assert (H : forall df', (forall row, In row df' -> In row df) ->
                          loc df (index df') = Ok df').
  { induction df' as [|[k a] df' IH]; intros Hincl; simpl; [reflexivity|].
    rewrite (filter_has_label_single df k a Hnd)
      by (apply Hincl; left; reflexivity).
    rewrite IH by (intros row Hrow; apply Hincl; right; exact Hrow).
    reflexivity. }
  apply H. auto.
Qed.

Lemma candidates_index d df0 :
  (forall i, In i (index (candidates d df0)) -> In i (index df0))
  /\ (NoDup (index df0) -> NoDup (index (candidates d df0))).
Proof.
  split.
  - intros i Hi. unfold index in Hi. apply in_map_iff in Hi.
    destruct Hi as (row & <- & Hrow).
    destruct (candidates_feasible _ _ _ Hrow) as (_ & _ & pr & Hin).
    change (fst row) with (fst (fst row, pr)). apply in_map, Hin.
  - unfold candidates, _calculate_net_units, _remove_infeasible_buildings.
    destruct df0 as [|r0 df0]; [intros _; constructor|].
    set (rows := r0 :: df0). clearbody rows. simpl. intros Hnd.
    match goal with
    | |- NoDup (index match ?l with _ => _ end) => destruct l eqn:El
    end; [constructor|].
    rewrite <- El. clear El.
    apply NoDup_index_filter.
    rewrite index_map_fst by reflexivity.
    rewrite index_map_fst by (intros [i [pr [[aus ps] cu]]]; reflexivity).
    apply NoDup_index_filter.
    rewrite index_map_fst by reflexivity.
    apply NoDup_index_filter. exact Hnd.
Qed.

Lemma calculate_probabilities_columns df ptp :
  let pool := snd (_calculate_probabilities df ptp) in
  index pool = index df
  /\ map (fun row => sized (snd row)) pool
     = map (fun row => sized (snd row)) df
  /\ map (fun row => net_units (snd row)) pool
     = map (fun row => net_units (snd row)) df.
Proof.
  unfold _calculate_probabilities, index. destruct ptp as [func|]; simpl.
  - auto.
  - rewrite !List.map_map. simpl. auto.
Qed.

Lemma table_of_buildings_index d df0 :
  keep_suboptimal d = false ->
  table_of_buildings d = Ok df0 ->
  forall i, In i (index df0) -> In i (table_index (feasibility d)).
Proof.
  unfold table_of_buildings, _get_dataframe_of_buildings. intros -> Hdf.
  simpl in Hdf. destruct (feasibility d) as [fe|l]; [|discriminate]. simpl.
  assert (Hkeep : forall forms,
             keep_form_with_max_profit fe forms = Ok df0 ->
             forall i, In i (index df0) -> In i (index (wrows fe))).
  { intros fs Hk i Hi. unfold keep_form_with_max_profit in Hk.
    assert (Hsel : forall f,
               match fs with
               | Some l => select_forms fe l
               | None => Ok fe
               end = Ok f -> wrows f = wrows fe).
    { intros f. destruct fs as [l|]; [|intros [= <-]; reflexivity].
      unfold select_forms.
      destruct (negb (forallb _ l)); [discriminate|].
      destruct (negb (bool_decide (NoDup l))); [discriminate|].
      intros [= <-]. reflexivity. }
    destruct (match fs with Some l => _ | None => _ end) as [f|e];
      [|discriminate].
    specialize (Hsel f eq_refl). simpl in Hk.
    destruct (if negb (no_rows (wrows f)) then _max_form f else Ok [])
      as [indexes|e]; [|discriminate].
    simpl in Hk.
    destruct (loc (stack f) indexes) as [rows|e] eqn:Hloc; [|discriminate].
    simpl in Hk. injection Hk as <-.
    unfold index in Hi. rewrite List.map_map in Hi. simpl in Hi.
    apply in_map_iff in Hi. destruct Hi as (row & <- & Hrow).
    apply (loc_In _ _ _ Hloc) in Hrow. destruct Hrow as [Hrow _].
    unfold stack in Hrow. apply filter_In in Hrow. destruct Hrow as [Hrow _].
    apply in_flat_map in Hrow. destruct Hrow as (wrow & Hw & Hrow).
    apply in_map_iff in Hrow. destruct Hrow as (c & <- & _). simpl.
    rewrite <- Hsel. apply in_map, Hw. }
  destruct (forms d) as [|c|l]; eauto.
  unfold single_form in Hdf.
  destruct (bool_decide (c ∈ columns fe)); [|discriminate].
  injection Hdf as <-. intros i Hi.
  rewrite index_map_fst in Hi by reflexivity. exact Hi.
Qed.

Lemma map_some_fst {A B} (l : list (Z * A)) (l' : list (Z * B)) :
  map fst l = map fst l' ->
  map (fun r => Some (fst r)) l = map (fun r => Some (fst r)) l'.
Proof.
  intros H.
  rewrite <- (List.map_map fst Some l), <- (List.map_map fst Some l'), H.
  reflexivity.
Qed.

Section WholePool.
Context {rng : Type}.
Variables wrc wrcm : @sampler rng.

(** X14: in non-long mode without a custom selection function, when the
    parcels of the table of buildings are distinct and the net units of
    the candidates fall short of a positive scalar target, [pick] draws
    nothing from the generator and returns one building per candidate,
    in the order of the candidates, each under its parcel; with
    [drop_after_build] every one of those parcels is then out of
    [self.feasibility]. *)
Theorem pick_builds_whole_pool
    (ptp : option (frame Z Candidate -> list fnum)) (st : @state rng)
    (df0 : frame Z Proposal) (t : fnum) (q : Q) :
  keep_suboptimal (self st) = false ->
  table_empty (feasibility (self st)) = false ->
  table_of_buildings (self st) = Ok df0 ->
  NoDup (index df0) ->
  candidates (self st) df0 <> [] ->
  sum_net_units (candidates (self st) df0) = Fin q ->
  target_units (self st) = Scalar t ->
  fpos t = true ->
  flt (Fin q) t = true ->
  exists st' new_df,
    pick wrc wrcm ptp None st = (st', Ok (Some new_df))
    /\ map new_parcel_id new_df
       = map (fun row => Some (fst row)) (candidates (self st) df0)
    /\ map (fun b => sized (candidate b)) new_df
       = map (fun row => sized (snd row)) (candidates (self st) df0)
    /\ gen st' = gen st
    /\ (drop_after_build (self st) = true ->
        forall i, In i (index (candidates (self st) df0)) ->
                  ~ In i (table_index (feasibility (self st')))).
Proof.
  intros Hk He Hdf Hnd Hne Hsum Ht Hpos Hlt.
  rewrite pick_eq, He, Hdf. cbv zeta.
  pose proof (remove_infeasible_config (self st) df0) as Hc.
  pose proof (remove_infeasible_feasibility (self st) df0) as Hf.
  set (d' := fst (_remove_infeasible_buildings (self st) df0)) in *.
  assert (Hk' : keep_suboptimal d' = false)
    by (destruct Hc as (_&_&_&_&_&_&_&_&_&_&->&_); exact Hk).
  assert (Hd' : drop_after_build d' = drop_after_build (self st))
    by (destruct Hc as (_&_&_&_&_&_&_&_&->&_); reflexivity).
  assert (Ht' : target_units d' = Scalar t)
    by (destruct Hc as (_&->&_); exact Ht).
  set (cand := candidates (self st) df0) in *.
  destruct (candidates_index (self st) df0) as [Hincl Hcnd].
  fold cand in Hincl, Hcnd. specialize (Hcnd Hnd).
  replace (no_rows cand) with false by (destruct cand; [contradiction|auto]).
  rewrite Hsum. simpl int. cbv iota. rewrite Hk'.
  destruct (calculate_probabilities_columns cand ptp) as (Hidx & Hsz & _).
  set (pdf := _calculate_probabilities cand ptp) in *.
  cbv zeta in Hidx, Hsz.
  assert (Hsump : sum_net_units (snd pdf) = Fin q).
  { unfold sum_net_units in *.
    destruct (calculate_probabilities_columns cand ptp) as (_ & _ & Hn).
    fold pdf in Hn. cbv zeta in Hn. rewrite Hn. exact Hsum. }
  assert (Hnone : has_parcel_id (snd pdf) = false).
  { apply has_parcel_id_none. intros r Hr. subst pdf.
    apply (selection_pool_In false) in Hr.
    destruct Hr as (r0 & Hr0 & _ & _ & _ & ->).
    apply candidates_feasible in Hr0. tauto. }
  assert (Hloc : loc (snd pdf) (index (snd pdf)) = Ok (snd pdf))
    by (apply loc_index_NoDup; rewrite Hidx; exact Hcnd).
  apply fpos_not_fle_zero in Hpos.
  unfold select_drop_prepare, _select_buildings. unfold_monad. simpl.
  rewrite Ht', Hsump, Hlt, Hpos, Hk'. simpl.
  unfold _drop_built_buildings. unfold_monad. simpl. rewrite Hd'.
  destruct (drop_after_build (self st)) eqn:Hd; simpl.
  - destruct (drop_rows (feasibility d') (index (snd pdf))) as [t'|e] eqn:Edrop.
    + simpl. unfold _prepare_new_buildings. unfold_monad. simpl.
      rewrite Hloc. simpl. eexists _, _. split; [reflexivity|].
      rewrite Hnone, !List.map_map. simpl.
      split; [apply map_some_fst, Hidx|].
      split; [exact Hsz|]. split; [reflexivity|].
      intros _ i Hi. apply drop_rows_index in Edrop.
      apply (proj1 Edrop). rewrite Hidx. exact Hi.
    + exfalso. unfold drop_rows, drop_labels in Edrop.
      assert (Hall : forall (rows : frame Z (gmap string Attrs)),
                 (forall i, In i (index (snd pdf)) -> In i (index rows)) ->
                 forallb (fun i => existsb (has_label i) rows)
                   (index (snd pdf)) = true).
      { intros rows Hin. apply forallb_forall. intros i Hi.
        specialize (Hin i Hi). unfold index in Hin.
        apply in_map_iff in Hin. destruct Hin as (row & <- & Hrow).
        apply existsb_exists. exists row. split; [exact Hrow|].
        apply bool_decide_eq_true. reflexivity. }
      assert (Hin : forall i, In i (index (snd pdf)) ->
                              In i (table_index (feasibility d'))).
      { intros i Hi. rewrite Hf.
        eapply table_of_buildings_index; [exact Hk | exact Hdf |].
        apply Hincl. rewrite <- Hidx. exact Hi. }
      destruct (feasibility d') as [fe|l]; simpl in *.
      * rewrite (Hall (wrows fe) Hin) in Edrop. discriminate.
      * exfalso. unfold table_of_buildings in Hdf. rewrite Hk in Hdf.
        unfold _get_dataframe_of_buildings in Hdf. simpl in Hdf.
        rewrite <- Hf in Hdf. discriminate.
  - unfold _prepare_new_buildings. unfold_monad. simpl.
    rewrite Hloc. simpl. eexists _, _. split; [reflexivity|].
    rewrite Hnone, !List.map_map. simpl.
    split; [apply map_some_fst, Hidx|].
    split; [exact Hsz|]. split; [reflexivity|].
    discriminate.
Qed.
End WholePool.

(** ** The rows of the reduced table *)

Lemma flt_fle a b : flt a b = true -> fle a b = true.
Proof.
  destruct a, b; simpl; try discriminate; try reflexivity.
  rewrite Qltb_lt, Qle_bool_iff. apply Qlt_le_weak.
Qed.

Lemma fle_refl a : is_nan a = false -> fle a a = true.
Proof.
  destruct a; simpl; try discriminate; try reflexivity.
  intros _. apply Qle_bool_iff, Qle_refl.
Qed.

(** The first maximum over the sorted forms, without the list: no form
    is more profitable, and a form that is as profitable has a label
    that sorts after. *)
Lemma first_max_sorted v l c :
  first_max v (sorted_forms l) c ->
  In c l
  /\ is_nan (v c) = false
  /\ forall c', In c' l -> is_nan (v c') = false ->
       fle (v c') (v c) = true
       /\ (flt (v c') (v c) = false -> label_le c c').
Proof.
  intros (before & after & Hsplit & Hn & Hbef & Haft).
  split; [apply sorted_forms_In; rewrite Hsplit; apply in_app_iff; right;
          left; reflexivity|].
  split; [exact Hn|].
  intros c' Hc' Hn'. apply sorted_forms_In in Hc'. rewrite Hsplit in Hc'.
  apply in_app_iff in Hc'. destruct Hc' as [Hc'|[<-|Hc']].
  - specialize (Hbef c' Hc' Hn'). split; [apply flt_fle, Hbef|].
    rewrite Hbef. discriminate.
  - split; [apply fle_refl, Hn | intros _; apply label_le_refl].
  - split; [apply Haft; assumption|].
    intros _. eapply sorted_forms_split; eauto.
Qed.

(** The reduced table on a wide table with one row per parcel: one row
    for each parcel of the unstacked table, under the form [idxmax]
    finds. *)
Lemma keep_form_reduced (fe : wide) (forms : option (list string)) :
  NoDup (index (wrows fe)) ->
  NoDup (columns fe) ->
  (forall l, forms = Some l ->
             NoDup l /\ forall c, In c l -> In c (columns fe)) ->
  allowed_forms fe forms <> [] ->
  let f := mkWide (allowed_forms fe forms) (wrows fe) in
  NoDup (columns f)
  /\ keep_form_with_max_profit fe forms
     = Ok (map (fun k => (fst k,
                          mkProposal (Some (snd k))
                            (cell (snd k) (cells_of f (fst k)))))
             (omap (fun i => option_map (pair i) (idxmax (profit_row f i)))
                (unstacked_index f))).
Proof.
  intros Hrows Hcols Hforms Hne f.
  assert (Hsel : match forms with
                 | Some l => select_forms fe l
                 | None => Ok fe
                 end = Ok f).
  { subst f. destruct forms as [l|]; simpl; [|destruct fe; reflexivity].
    destruct (Hforms l eq_refl) as [Hnd Hincl]. unfold select_forms.
    rewrite (proj2 (forallb_forall _ l)).
    - simpl. rewrite bool_decide_eq_true_2 by exact Hnd. reflexivity.
    - intros c Hc. apply bool_decide_eq_true, list_elem_of_In, Hincl, Hc. }
  assert (Hfrows : NoDup (index (wrows f))) by exact Hrows.
  assert (Hfcols : NoDup (columns f)).
  { subst f. simpl. destruct forms; simpl; [|exact Hcols].
    apply NoDup_list_filter, Hcols. }
  split; [exact Hfcols|].
  unfold keep_form_with_max_profit. rewrite Hsel. simpl.
  destruct (no_rows (wrows fe)) eqn:Erows.
  { simpl. assert (Hnil : unstacked_index f = []).
    { unfold unstacked_index, profit_entries, stack. subst f. simpl.
      destruct (wrows fe); [reflexivity | discriminate]. }
    rewrite Hnil. reflexivity. }
  simpl. unfold _max_form.
  replace (no_rows (columns f)) with false
    by (subst f; simpl; destruct (allowed_forms fe forms);
        [contradiction | reflexivity]).
  rewrite bool_decide_eq_true_2
    by (apply profit_entries_NoDup; assumption).
  simpl.
  rewrite (loc_single (stack f)
             (fun k => cell (snd k) (cells_of f (fst k)))).
  2:{ intros [i c] Hin. apply omap_pair_In in Hin. destruct Hin as [Hi Hidx].
      apply (unstacked_index_In f Hfrows) in Hi. destruct Hi as [Hi Hlive].
      rewrite (profit_row_live f Hfrows Hfcols i Hi) in Hidx.
      assert (Hlive' : exists c0, In c0 (sorted_forms (columns f))
                                  /\ is_nan (profit_of f i c0) = false).
      { destruct Hlive as (c0 & Hc0 & Hn0). exists c0.
        split; [apply sorted_forms_In, Hc0 | exact Hn0]. }
      destruct (idxmax_live (profit_of f i) _ Hlive') as (c0 & Hidx0 & Hfm).
      assert (c0 = c) by congruence. subst c0.
      apply first_max_sorted in Hfm. destruct Hfm as (Hc & Hnan & _).
      apply filter_has_label_single;
        [apply stack_index_NoDup; assumption|].
      apply (stack_In f Hfrows).
      split; [|split; [exact Hc | split; [exact Hi | reflexivity]]].
      unfold all_nan. unfold profit_of in Hnan. simpl. rewrite Hnan.
      reflexivity. }
  simpl. rewrite List.map_map. reflexivity.
Qed.

(** What [idxmax] finds for a parcel of the unstacked table. *)
Lemma max_form_of_parcel (f : wide) (i : Z) (cells : gmap string Attrs) :
  NoDup (index (wrows f)) ->
  NoDup (columns f) ->
  In (i, cells) (wrows f) ->
  (exists c, In c (columns f) /\ is_nan (max_profit (cell c cells)) = false) ->
  exists c,
    idxmax (profit_row f i) = Some c
    /\ In i (unstacked_index f)
    /\ first_max (fun c' => max_profit (cell c' cells))
         (sorted_forms (columns f)) c.
Proof.
  intros Hfrows Hfcols Hin (c0 & Hc0 & Hn0).
  assert (Hi : In i (index (wrows f)))
    by (change i with (fst (i, cells)); apply in_map, Hin).
  pose proof (cells_of_In f Hfrows i cells Hin) as Hcells.
  assert (Hv : profit_of f i = fun c' => max_profit (cell c' cells))
    by (unfold profit_of; rewrite Hcells; reflexivity).
  rewrite (profit_row_live f Hfrows Hfcols i Hi), Hv.
  destruct (idxmax_live (fun c' => max_profit (cell c' cells))
              (sorted_forms (columns f))) as (c & Hidx & Hfm).
  { exists c0. split; [apply sorted_forms_In, Hc0 | exact Hn0]. }
  exists c. split; [exact Hidx|]. split; [|exact Hfm].
  apply (unstacked_index_In f Hfrows). split; [exact Hi|].
  exists c0. rewrite Hv. auto.
Qed.

(** C4, amended: on a wide table with one row per parcel, with [forms]
    [None] or a list of forms of the table, and with a [max_profit]
    under an allowed form on some parcel, the reduction returns a table
    in which every parcel that has a [max_profit] under an allowed form
    has exactly one row.  The row
    holds the cells of a form of greatest [max_profit] among the allowed
    forms and carries that form in its [form] column; when several forms
    tie, the form kept is the one whose label sorts first, whatever the
    order of the column groups.  A parcel with no [max_profit] under any
    allowed form has no row. *)
Theorem keep_form_with_max_profit_best
    (fe : wide) (forms : option (list string)) :
  NoDup (index (wrows fe)) ->
  NoDup (columns fe) ->
  (forall l, forms = Some l ->
             NoDup l /\ forall c, In c l -> In c (columns fe)) ->
  (exists (i : Z) (cells : gmap string Attrs) (c : string),
      In (i, cells) (wrows fe)
      /\ In c (allowed_forms fe forms)
      /\ is_nan (max_profit (cell c cells)) = false) ->
  exists df : frame Z Proposal,
    keep_form_with_max_profit fe forms = Ok df
    /\ forall (i : Z) (cells : gmap string Attrs),
        In (i, cells) (wrows fe) ->
        let v := fun c => max_profit (cell c cells) in
        ((exists c, In c (allowed_forms fe forms) /\ is_nan (v c) = false) ->
         exists c : string,
           List.filter (has_label i) df
           = [(i, mkProposal (Some c) (cell c cells))]
           /\ In c (allowed_forms fe forms)
           /\ is_nan (v c) = false
           /\ forall c', In c' (allowed_forms fe forms) ->
                is_nan (v c') = false ->
                fle (v c') (v c) = true
                /\ (flt (v c') (v c) = false -> label_le c c'))
        /\ ((forall c, In c (allowed_forms fe forms) -> is_nan (v c) = true) ->
            ~ In i (index df)).
Proof.
  intros Hrows Hcols Hforms (i0 & cells0 & c0 & _ & Hc0 & _).
  assert (Hne : allowed_forms fe forms <> []).
  { intros Hnil. rewrite Hnil in Hc0. destruct Hc0. }
  destruct (keep_form_reduced fe forms Hrows Hcols Hforms Hne)
    as [Hfcols Heq].
  cbv zeta in Heq. eexists. split; [exact Heq|].
  set (f := mkWide (allowed_forms fe forms) (wrows fe)) in *.
  assert (Hfrows : NoDup (index (wrows f))) by exact Hrows.
  intros i cells Hin v. split.
  - intros Hlive.
    destruct (max_form_of_parcel f i cells Hfrows Hfcols Hin Hlive)
      as (c & Hidx & Hi & Hfm).
    exists c. split; [|exact (first_max_sorted _ _ _ Hfm)].
    apply filter_has_label_single.
    + unfold index. rewrite !List.map_map. simpl.
      apply (omap_pair_NoDup (fun i => idxmax (profit_row f i))).
      apply unstacked_index_NoDup.
    + apply in_map_iff. exists (i, c). simpl.
      rewrite (cells_of_In f Hfrows i cells Hin).
      split; [reflexivity|]. apply omap_pair_In. auto.
  - intros Hnan Hi.
    unfold index in Hi. rewrite List.map_map in Hi. simpl in Hi.
    apply in_map_iff in Hi. destruct Hi as ([j c] & Hj & Hi).
    simpl in Hj. subst j.
    apply omap_pair_In in Hi. destruct Hi as [Hi _].
    apply (unstacked_index_In f Hfrows) in Hi.
    destruct Hi as [_ (c' & Hc' & Hlive)].
    unfold profit_of in Hlive.
    rewrite (cells_of_In f Hfrows i cells Hin) in Hlive.
    specialize (Hnan c' Hc'). unfold v in Hnan. congruence.
Qed.

(** X15: on a wide table with one row per parcel, with [forms] [None]
    or a list of forms of the table and at least one allowed form, the
    rows of the reduced table have distinct parcels, and each row is the
    proposal of one parcel of the table under an allowed form: no
    allowed form of that parcel is more profitable, and one that is as
    profitable has a label that sorts after.  The reduction invents no
    row and keeps no second form. *)
Theorem keep_form_with_max_profit_rows
    (fe : wide) (forms : option (list string)) (df : frame Z Proposal) :
  NoDup (index (wrows fe)) ->
  NoDup (columns fe) ->
  (forall l, forms = Some l ->
             NoDup l /\ forall c, In c l -> In c (columns fe)) ->
  allowed_forms fe forms <> [] ->
  keep_form_with_max_profit fe forms = Ok df ->
  NoDup (index df)
  /\ forall (i : Z) (pr : Proposal),
      In (i, pr) df ->
      exists (c : string) (cells : gmap string Attrs),
        In (i, cells) (wrows fe)
        /\ pr = mkProposal (Some c) (cell c cells)
        /\ In c (allowed_forms fe forms)
        /\ is_nan (max_profit (cell c cells)) = false
        /\ forall c', In c' (allowed_forms fe forms) ->
             is_nan (max_profit (cell c' cells)) = false ->
             fle (max_profit (cell c' cells)) (max_profit (cell c cells))
             = true
             /\ (flt (max_profit (cell c' cells)) (max_profit (cell c cells))
                 = false -> label_le c c').
Proof.
  intros Hrows Hcols Hforms Hne Hk.
  destruct (keep_form_reduced fe forms Hrows Hcols Hforms Hne)
    as [Hfcols Heq].
  cbv zeta in Heq. rewrite Heq in Hk. injection Hk as <-.
  set (f := mkWide (allowed_forms fe forms) (wrows fe)) in *.
  assert (Hfrows : NoDup (index (wrows f))) by exact Hrows.
  split.
  - unfold index. rewrite List.map_map. simpl.
    apply (omap_pair_NoDup (fun i => idxmax (profit_row f i))).
    apply unstacked_index_NoDup.
  - intros i pr Hin. apply in_map_iff in Hin.
    destruct Hin as ([j c] & [= -> <-] & Hin). simpl.
    apply omap_pair_In in Hin. destruct Hin as [Hi Hidx].
    apply (unstacked_index_In f Hfrows) in Hi. destruct Hi as [Hi Hlive].
    pose proof Hi as Hi'. unfold index in Hi'. apply in_map_iff in Hi'.
    destruct Hi' as ([j cells] & Hj & Hrow). simpl in Hj. subst j.
    pose proof (cells_of_In f Hfrows i cells Hrow) as Hcells.
    unfold profit_of in Hlive. rewrite Hcells in Hlive.
    destruct (max_form_of_parcel f i cells Hfrows Hfcols Hrow Hlive)
      as (c0 & Hidx0 & _ & Hfm).
    assert (c0 = c) by congruence. subst c0.
    exists c, cells. split; [exact Hrow|].
    split; [rewrite Hcells; reflexivity|].
    exact (first_max_sorted _ _ _ Hfm).
Qed.

(** Scenario D: office wins on parcel 1, and office, whose label sorts
    first, wins the tie on parcel 2. *)
Lemma keep_form_with_max_profit_best_witness :
  exists df : frame Z Proposal,
    keep_form_with_max_profit scenario_D None = Ok df
    /\ forall (i : Z) (cells : gmap string Attrs),
        In (i, cells) (wrows scenario_D) ->
        let v := fun c => max_profit (cell c cells) in
        ((exists c, In c (allowed_forms scenario_D None)
                    /\ is_nan (v c) = false) ->
         exists c : string,
           List.filter (has_label i) df
           = [(i, mkProposal (Some c) (cell c cells))]
           /\ In c (allowed_forms scenario_D None)
           /\ is_nan (v c) = false
           /\ forall c', In c' (allowed_forms scenario_D None) ->
                is_nan (v c') = false ->
                fle (v c') (v c) = true
                /\ (flt (v c') (v c) = false -> label_le c c'))
        /\ ((forall c, In c (allowed_forms scenario_D None) ->
                       is_nan (v c) = true) ->
            ~ In i (index df)).
Proof.
  apply (keep_form_with_max_profit_best scenario_D None).
  - apply (bool_decide_unpack _). vm_compute. exact I.
  - apply (bool_decide_unpack _). vm_compute. exact I.
  - intros l. discriminate.
  - exists 1, {[ "residential"%string := plain 50 2000;
                 "office"%string := plain 80 2000 ]}, "office"%string.
    split; [left; reflexivity|]. split; [right; left; reflexivity|].
    vm_compute. reflexivity.
Defined.

Lemma keep_form_with_max_profit_rows_witness :
  exists df : frame Z Proposal,
    keep_form_with_max_profit scenario_D None = Ok df
    /\ NoDup (index df)
    /\ forall (i : Z) (pr : Proposal),
        In (i, pr) df ->
        exists (c : string) (cells : gmap string Attrs),
          In (i, cells) (wrows scenario_D)
          /\ pr = mkProposal (Some c) (cell c cells)
          /\ In c (allowed_forms scenario_D None)
          /\ is_nan (max_profit (cell c cells)) = false
          /\ forall c', In c' (allowed_forms scenario_D None) ->
               is_nan (max_profit (cell c' cells)) = false ->
               fle (max_profit (cell c' cells)) (max_profit (cell c cells))
               = true
               /\ (flt (max_profit (cell c' cells))
                     (max_profit (cell c cells)) = false -> label_le c c').
Proof.
  eexists. split; [vm_compute; reflexivity|].
  eapply (keep_form_with_max_profit_rows scenario_D None).
  - apply (bool_decide_unpack _). vm_compute. exact I.
  - apply (bool_decide_unpack _). vm_compute. exact I.
  - intros l. discriminate.
  - vm_compute. discriminate.
  - vm_compute. reflexivity.
Defined.

(** ** A single form *)

Section SingleForm.
Context {rng : Type}.
Variables wrc wrcm : @sampler rng.

(** X17: in non-long mode with a single form, when [pick] returns a
    table the form is one of the wide table, and every building has the
    configured form in its [form] column and, under its parcel, the
    profit, floor-area ratio and floor areas the wide table holds for
    that parcel and that form, with the [stories] of that cell rounded
    up. *)
Theorem pick_single_form
    (ptp : option (frame Z Candidate -> list fnum))
    (csf : option selection_func) (st st' : @state rng)
    (new_df : list Building) (w : wide) (c : string) :
  keep_suboptimal (self st) = false ->
  feasibility (self st) = Wide w ->
  forms (self st) = OneForm c ->
  pick wrc wrcm ptp csf st = (st', Ok (Some new_df)) ->
  In c (columns w)
  /\ forall b, In b new_df ->
       new_form b = Some c
       /\ exists (i : Z) (cells : gmap string Attrs),
            new_parcel_id b = Some i
            /\ In (i, cells) (wrows w)
            /\ kept_attrs (attrs (proposal (sized (candidate b))))
               = kept_attrs (cell c cells)
            /\ new_stories b = fceil (stories (cell c cells)).
Proof.
  intros Hk Hw Hf Hpick.
  pose proof (pick_row_written _ _ _ _ _ _ _ Hpick) as Hwritten.
  apply pick_row_inv in Hpick. destruct Hpick as (df0 & Hdf0 & Hrows).
  unfold table_of_buildings, _get_dataframe_of_buildings in Hdf0.
  rewrite Hk, Hw, Hf in Hdf0. simpl in Hdf0. unfold single_form in Hdf0.
  destruct (bool_decide_reflect (c ∈ columns w)) as [Hc|Hc]; [|discriminate].
  injection Hdf0 as <-.
  split; [apply list_elem_of_In, Hc|].
  intros b Hb. destruct (Hwritten b Hb) as (_ & Hst & Hform). split.
  - rewrite Hform. unfold written_form. rewrite Hf. reflexivity.
  - destruct (Hrows b Hb) as (row0 & Hin & Hs & _ & Hp).
    destruct (candidates_columns _ _ _ Hin) as (Hprop & _).
    cbv zeta in Hprop. apply in_map_iff in Hprop.
    destruct Hprop as ([i cells] & Heq & Hrow). simpl in Heq.
    injection Heq as Hi Hpr.
    exists i, cells. split; [rewrite Hp, Hi; reflexivity|].
    split; [exact Hrow|]. rewrite Hst, Hs, <- Hpr. auto.
Qed.
End SingleForm.

(** ** The further properties on the scenarios *)

(** An instance built with [num_units_to_build = 5] comes back with
    [None]. *)
Lemma from_yaml_to_yaml_witness :
  let d := set_num_units_to_build (Some 5)
             (example_developer (Wide scenario_D) NoForms 3 false) in
  let back :=
    from_yaml plain_yaml_to_dict (feasibility d) (forms d) (target_units d)
      (parcel_size d) (ave_unit_size d) (current_units d) (year d)
      (to_yaml plain_convert_to_yaml d) true in
  back = Ok (example_developer (Wide scenario_D) NoForms 3 false)
  /\ (back = Ok d <-> num_units_to_build d = None).
Proof.
  apply (from_yaml_to_yaml plain_yaml_to_dict plain_convert_to_yaml).
  intros cfg. reflexivity.
Defined.

(** Without the [residential] key the instance is not built. *)
Lemma from_yaml_key_error_witness :
  example_from_yaml broken_cfg false = Raise KeyError.
Proof.
  apply (from_yaml_key_error plain_yaml_to_dict empty_table NoForms
           (Scalar (Fin 3)) example_sizes example_unit_sizes example_units
           (Some 2020) broken_cfg false broken_cfg eq_refl).
  exists "residential"%string. split; [simpl; auto 7|]. vm_compute. reflexivity.
Defined.

(** Without the [keep_suboptimal] key the argument decides. *)
Lemma from_yaml_keep_suboptimal_witness :
  exists d,
    example_from_yaml short_cfg true = Ok d
    /\ keep_suboptimal d = true.
Proof.
  eexists. split; [vm_compute; reflexivity|].
  eapply (from_yaml_keep_suboptimal plain_yaml_to_dict empty_table NoForms
            (Scalar (Fin 3)) example_sizes example_unit_sizes example_units
            (Some 2020) short_cfg true short_cfg).
  - reflexivity.
  - vm_compute. reflexivity.
  - vm_compute. reflexivity.
Defined.

Lemma pick_rows_from_table_witness :
  exists (st' : @state nat) (new_df : list Building)
         (df0 : frame Z Proposal),
    example_pick (example_state (Long scenario_E) NoForms 1000 true)
    = (st', Ok (Some new_df))
    /\ new_df <> []
    /\ table_of_buildings
         (self (example_state (Long scenario_E) NoForms 1000 true)) = Ok df0
    /\ forall b, In b new_df ->
         exists (i : Z) (pr : Proposal),
           In (i, pr) df0
           /\ new_parcel_id b = Some i
           /\ kept_attrs (attrs (proposal (sized (candidate b))))
              = kept_attrs (attrs pr)
           /\ new_stories b = fceil (stories (attrs pr))
           /\ new_form b = written_form NoForms pr.
Proof.
  eexists _, _.
  destruct (pick_rows_from_table
              (spec_weighted_random_choice counter_draw)
              (spec_weighted_random_choice_multiparcel counter_draw)
              None None (example_state (Long scenario_E) NoForms 1000 true)
              _ _ eq_refl) as (df0 & Hdf0 & Hrows).
  exists df0. split; [vm_compute; reflexivity|].
  split; [discriminate|]. split; [exact Hdf0 | exact Hrows].
Defined.

Lemma pick_rows_have_series_entries_witness :
  exists (st' : @state nat) (new_df : list Building),
    example_pick (example_state (Wide scenario_D) NoForms 3 false)
    = (st', Ok (Some new_df))
    /\ new_df <> []
    /\ forall b, In b new_df ->
         exists i : Z,
           new_parcel_id b = Some i
           /\ example_sizes !! i
              = Some (col_parcel_size (sized (candidate b)))
           /\ example_units !! i
              = Some (col_current_units (sized (candidate b))).
Proof.
  eexists _, _. split; [vm_compute; reflexivity|]. split; [discriminate|].
  eapply (pick_rows_have_series_entries
            (spec_weighted_random_choice counter_draw)
            (spec_weighted_random_choice_multiparcel counter_draw)
            None None (example_state (Wide scenario_D) NoForms 3 false)).
  vm_compute. reflexivity.
Defined.

Lemma pick_rows_unit_size_not_below_min_witness :
  exists (st' : @state nat) (new_df : list Building),
    example_pick (example_state (Wide scenario_D) NoForms 3 false)
    = (st', Ok (Some new_df))
    /\ new_df <> []
    /\ forall b, In b new_df ->
         flt (col_ave_unit_size (sized (candidate b))) (Fin 400) = false.
Proof.
  eexists _, _. split; [vm_compute; reflexivity|]. split; [discriminate|].
  eapply (pick_rows_unit_size_not_below_min
            (spec_weighted_random_choice counter_draw)
            (spec_weighted_random_choice_multiparcel counter_draw)
            None None (example_state (Wide scenario_D) NoForms 3 false)).
  vm_compute. reflexivity.
Defined.

Lemma pick_without_drop_keeps_feasibility_witness :
  feasibility (self (fst (example_pick keep_all_state))) = Wide scenario_D.
Proof.
  apply (pick_without_drop_keeps_feasibility
           (spec_weighted_random_choice counter_draw)
           (spec_weighted_random_choice_multiparcel counter_draw)
           None None keep_all_state).
  reflexivity.
Defined.

(** The second call on scenario D finds the series clamped. *)
Lemma pick_keeps_clamped_series_witness :
  ave_unit_size (self (fst (example_pick after_first_pick)))
  = ave_unit_size (self after_first_pick).
Proof.
  apply (pick_keeps_clamped_series
           (spec_weighted_random_choice counter_draw)
           (spec_weighted_random_choice_multiparcel counter_draw)
           None None after_first_pick).
  apply (bool_decide_unpack _). vm_compute. exact I.
Defined.

(** Scenario B through [pick]: a table with no row, not [None]. *)
Lemma pick_builds_nothing_for_nonpositive_target_witness :
  exists st' : @state nat,
    example_pick (example_state (Wide scenario_D) NoForms 0 false)
    = (st', Ok (Some []))
    /\ feasibility (self st') = Wide scenario_D
    /\ gen st' = O.
Proof.
  eapply (pick_builds_nothing_for_nonpositive_target
            (spec_weighted_random_choice counter_draw)
            (spec_weighted_random_choice_multiparcel counter_draw)
            None (example_state (Wide scenario_D) NoForms 0 false)).
  - reflexivity.
  - vm_compute. reflexivity.
  - vm_compute. discriminate.
  - vm_compute. reflexivity.
  - reflexivity.
  - reflexivity.
Defined.

(** A unit size of zero on parcel 1. *)
Lemma pick_overflow_on_infinite_units_witness :
  exists st' : @state nat,
    example_pick zero_unit_state = (st', Raise OverflowError)
    /\ printed st' = []
    /\ gen st' = O
    /\ feasibility (self st') = Wide scenario_D.
Proof.
  eapply (pick_overflow_on_infinite_units
            (spec_weighted_random_choice counter_draw)
            (spec_weighted_random_choice_multiparcel counter_draw)
            None None zero_unit_state).
  - reflexivity.
  - vm_compute. reflexivity.
  - vm_compute. reflexivity.
Defined.

Lemma pick_sub_targets_need_custom_selection_witness :
  exists st' : @state nat,
    example_pick sub_target_state = (st', Raise ValueError)
    /\ feasibility (self st') = Wide scenario_D
    /\ gen st' = O.
Proof.
  eapply (pick_sub_targets_need_custom_selection
            (spec_weighted_random_choice counter_draw)
            (spec_weighted_random_choice_multiparcel counter_draw)
            None sub_target_state).
  - reflexivity.
  - vm_compute. reflexivity.
  - vm_compute. discriminate.
  - vm_compute. reflexivity.
  - reflexivity.
Defined.

(** Scenario C through [pick], on the table of scenario D: both parcels
    are built and dropped. *)
Lemma pick_builds_whole_pool_witness :
  let st := example_state (Wide scenario_D) NoForms 1000 false in
  exists st' new_df,
    example_pick st = (st', Ok (Some new_df))
    /\ map new_parcel_id new_df = [Some 1; Some 2]
    /\ gen st' = O
    /\ ~ In 1 (table_index (feasibility (self st')))
    /\ ~ In 2 (table_index (feasibility (self st'))).
Proof.
  intros st.
  destruct (pick_builds_whole_pool
              (spec_weighted_random_choice counter_draw)
              (spec_weighted_random_choice_multiparcel counter_draw)
              None st
              [(1, mkProposal (Some "office"%string) (plain 80 2000));
               (2, mkProposal (Some "office"%string) (plain 60 4000))]
              (Fin 1000) 12)
    as (st' & new_df & Hpick & Hids & _ & Hgen & Hdrop).
  - reflexivity.
  - reflexivity.
  - vm_compute. reflexivity.
  - apply (bool_decide_unpack _). vm_compute. exact I.
  - vm_compute. discriminate.
  - vm_compute. reflexivity.
  - reflexivity.
  - reflexivity.
  - reflexivity.
  - exists st', new_df. split; [exact Hpick|].
    split; [exact Hids|]. split; [exact Hgen|].
    split; apply (Hdrop eq_refl); vm_compute; auto.
Defined.

Lemma pick_single_form_witness :
  let st := example_state (Wide scenario_D) (OneForm "office") 3 false in
  exists (st' : @state nat) (new_df : list Building),
    example_pick st = (st', Ok (Some new_df))
    /\ new_df <> []
    /\ In "office"%string (columns scenario_D)
    /\ forall b, In b new_df ->
         new_form b = Some "office"%string
         /\ exists (i : Z) (cells : gmap string Attrs),
              new_parcel_id b = Some i
              /\ In (i, cells) (wrows scenario_D)
              /\ kept_attrs (attrs (proposal (sized (candidate b))))
                 = kept_attrs (cell "office"%string cells)
              /\ new_stories b
                 = fceil (stories (cell "office"%string cells)).
Proof.
  intros st. eexists _, _. split; [vm_compute; reflexivity|].
  split; [discriminate|].
  eapply (pick_single_form
            (spec_weighted_random_choice counter_draw)
            (spec_weighted_random_choice_multiparcel counter_draw)
            None None st).
  - reflexivity.
  - reflexivity.
  - reflexivity.
  - vm_compute. reflexivity.
Defined.

(** ** The net units of the new buildings *)

Section NetUnits.
Context {rng : Type}.
Variables wrc wrcm : @sampler rng.

(** X19: on every building [pick] returns, [net_units] is the rounded
    number of units less the current units of the parcel: the
    residential floor area over the clamped unit size when
    [residential] is set, the non-residential floor area over
    [bldg_sqft_per_job] otherwise. *)
Theorem pick_rows_net_units
    (ptp : option (frame Z Candidate -> list fnum))
    (csf : option selection_func) (st st' : @state rng)
    (new_df : list Building) :
  pick wrc wrcm ptp csf st = (st', Ok (Some new_df)) ->
  forall b, In b new_df ->
    let s := sized (candidate b) in
    net_units (candidate b)
    = fsub (if residential (self st)
            then fround (fdiv (residential_sqft (attrs (proposal s)))
                           (col_ave_unit_size s))
            else fround (fdiv (non_residential_sqft (attrs (proposal s)))
                           (bldg_sqft_per_job (self st))))
        (col_current_units s).
Proof.
  intros Hpick b Hb. apply pick_row_inv in Hpick.
  destruct Hpick as (df0 & Hdf0 & Hrows).
  destruct (Hrows b Hb) as (row0 & Hin & Hs & Hn & _).
  destruct (candidates_columns _ _ _ Hin)
    as (_ & _ & _ & _ & Hres & Hjob & Hnet).
  cbv zeta in *. rewrite Hn, Hs, Hnet, <- Hres, <- Hjob. reflexivity.
Qed.
End NetUnits.

Lemma pick_rows_net_units_witness :
  exists (st' : @state nat) (new_df : list Building),
    example_pick (example_state (Wide scenario_D) NoForms 3 false)
    = (st', Ok (Some new_df))
    /\ new_df <> []
    /\ forall b, In b new_df ->
         net_units (candidate b)
         = fsub (fround (fdiv (residential_sqft
                                 (attrs (proposal (sized (candidate b)))))
                           (col_ave_unit_size (sized (candidate b)))))
             (col_current_units (sized (candidate b))).
Proof.
  eexists _, _. split; [vm_compute; reflexivity|]. split; [discriminate|].
  eapply (pick_rows_net_units
            (spec_weighted_random_choice counter_draw)
            (spec_weighted_random_choice_multiparcel counter_draw)
            None None (example_state (Wide scenario_D) NoForms 3 false)).
  vm_compute. reflexivity.
Defined.
